(** * Jailhouse, hypervisor/arch/arm-common/control.c

    Per-CPU lifecycle control of the ARM port: suspend / resume / reset / park
    requests, the event-check pass a core runs on itself ([check_events]), the
    SGI and physical-interrupt entry points, and the cell hooks.

    The file is embedded as an interleaving transition system.  Every core has
    a program point ([pc]) named after the source line it is about to execute;
    one [exec] step of a core performs the shared-memory access (or the call
    of an external service) of that line.  Spin loops are steps that leave the
    state unchanged while their condition does not hold.  Calls of services
    that live outside this file, and every store to a control flag, are
    appended to a history ([trace]) together with the core that made them. *)

From Stdlib Require Import ZArith List Bool Arith Lia.
Import ListNotations.

(** ** Platform constants and configuration

    The macros [SGI_INJECT], [SGI_EVENT], [PSCI_INVALID_ADDRESS], the field
    [system_config->platform_info.arm.maintenance_irq] and the width of an
    element of [per_cpu::stats] are declared in headers outside this file;
    they are taken as parameters. *)
Record platform := {
  SGI_INJECT : Z;
  SGI_EVENT : Z;
  PSCI_INVALID_ADDRESS : Z;
  maintenance_irq : Z;
  stat_bits : Z
}.

(** Indices of [per_cpu::stats] used in this file. *)
Inductive cpu_stat :=
| JAILHOUSE_CPU_STAT_VMEXITS_VSGI
| JAILHOUSE_CPU_STAT_VMEXITS_MANAGEMENT
| JAILHOUSE_CPU_STAT_VMEXITS_MAINTENANCE
| JAILHOUSE_CPU_STAT_VMEXITS_VIRQ.

Definition cpu_stat_eqb (a b : cpu_stat) : bool :=
  match a, b with
  | JAILHOUSE_CPU_STAT_VMEXITS_VSGI, JAILHOUSE_CPU_STAT_VMEXITS_VSGI
  | JAILHOUSE_CPU_STAT_VMEXITS_MANAGEMENT, JAILHOUSE_CPU_STAT_VMEXITS_MANAGEMENT
  | JAILHOUSE_CPU_STAT_VMEXITS_MAINTENANCE, JAILHOUSE_CPU_STAT_VMEXITS_MAINTENANCE
  | JAILHOUSE_CPU_STAT_VMEXITS_VIRQ, JAILHOUSE_CPU_STAT_VMEXITS_VIRQ => true
  | _, _ => false
  end.

(** ** Per-CPU control state ([struct per_cpu], the fields this file uses)

    [control_lock] records the core that holds the spinlock, if any. *)
Record per_cpu := mk_per_cpu {
  control_lock : option nat;
  suspend_cpu : bool;
  cpu_suspended : bool;
  park : bool;
  reset : bool;
  cpu_on_entry : Z;
  wait_for_poweron : bool;
  flush_vcpu_caches : bool;
  stats : cpu_stat -> Z
}.

(** The boolean control flags, as first-class names. *)
Inductive field :=
| F_suspend_cpu
| F_cpu_suspended
| F_park
| F_reset
| F_wait_for_poweron
| F_flush_vcpu_caches.

Definition get_field (f : field) (d : per_cpu) : bool :=
  match f with
  | F_suspend_cpu => suspend_cpu d
  | F_cpu_suspended => cpu_suspended d
  | F_park => park d
  | F_reset => reset d
  | F_wait_for_poweron => wait_for_poweron d
  | F_flush_vcpu_caches => flush_vcpu_caches d
  end.

Definition set_field (f : field) (v : bool) (d : per_cpu) : per_cpu :=
  match f with
  | F_suspend_cpu =>
      mk_per_cpu (control_lock d) v (cpu_suspended d) (park d) (reset d)
        (cpu_on_entry d) (wait_for_poweron d) (flush_vcpu_caches d) (stats d)
  | F_cpu_suspended =>
      mk_per_cpu (control_lock d) (suspend_cpu d) v (park d) (reset d)
        (cpu_on_entry d) (wait_for_poweron d) (flush_vcpu_caches d) (stats d)
  | F_park =>
      mk_per_cpu (control_lock d) (suspend_cpu d) (cpu_suspended d) v (reset d)
        (cpu_on_entry d) (wait_for_poweron d) (flush_vcpu_caches d) (stats d)
  | F_reset =>
      mk_per_cpu (control_lock d) (suspend_cpu d) (cpu_suspended d) (park d) v
        (cpu_on_entry d) (wait_for_poweron d) (flush_vcpu_caches d) (stats d)
  | F_wait_for_poweron =>
      mk_per_cpu (control_lock d) (suspend_cpu d) (cpu_suspended d) (park d)
        (reset d) (cpu_on_entry d) v (flush_vcpu_caches d) (stats d)
  | F_flush_vcpu_caches =>
      mk_per_cpu (control_lock d) (suspend_cpu d) (cpu_suspended d) (park d)
        (reset d) (cpu_on_entry d) (wait_for_poweron d) v (stats d)
  end.

Definition set_lock (l : option nat) (d : per_cpu) : per_cpu :=
  mk_per_cpu l (suspend_cpu d) (cpu_suspended d) (park d) (reset d)
    (cpu_on_entry d) (wait_for_poweron d) (flush_vcpu_caches d) (stats d).

Definition set_stats (st : cpu_stat -> Z) (d : per_cpu) : per_cpu :=
  mk_per_cpu (control_lock d) (suspend_cpu d) (cpu_suspended d) (park d)
    (reset d) (cpu_on_entry d) (wait_for_poweron d) (flush_vcpu_caches d) st.

(** [stats[k] += count_event] on an unsigned counter of [stat_bits] bits. *)
Definition wrap_stat (cfg : platform) (z : Z) : Z := (z mod 2 ^ stat_bits cfg)%Z.

Definition stat_add (cfg : platform) (k : cpu_stat) (count_event : Z)
    (d : per_cpu) : per_cpu :=
  set_stats
    (fun k' => if cpu_stat_eqb k' k
               then wrap_stat cfg (stats d k + count_event)
               else stats d k')
    d.

(** ** History of stores and of calls into collaborators *)
Record cell := { cpu_set : list nat }.

Inductive event :=
| Write (cpu : nat) (f : field) (v : bool)
| irqchip_send_sgi (targets id : Z)
| irqchip_inject_pending
| irqchip_set_pending (irqn : Z)
| arm_paging_vcpu_flush_tlbs
| arm_cpu_reset (entry : Z)
| arm_paging_vcpu_init_parking_mm
| printk_unknown_sgi (irqn : Z)
| arm_cell_dcaches_flush_invalidate (c : cell)
| irqchip_config_commit (c : option cell).

(** ** Program points

    A program point is named after the source line whose shared access or
    external call the core performs next.  [t] is the [cpu_id] argument of a
    request; [ts] the local [target_suspended]; [r] the local [reset] of
    [check_events].  Tests of locals and jumps take no step of their own:
    [Susp57] is the unlock of line 57 together with the test of line 59,
    [Ev122] the store of line 122 with [reset = true; break], [Ev143] the read
    of [wait_for_poweron] at line 143 with the test of the local at line 145,
    and the second store of [enter_cpu_off] carries the [break] of lines 115
    and 127.  [Ev100] is the read of line 100 and [Ev101] the store of line
    101.  [enter_cpu_off] is entered from [check_events] and from
    [arm_cpu_park]; [off_return] says where it returns to. *)
Inductive off_return := K_check_events | K_arm_cpu_park.

Inductive pc :=
| Idle
(* enter_cpu_off *)
| Off22 (k : off_return)
| Off23 (k : off_return)
(* arm_cpu_park *)
| Park30
| Park32
| Park34
| Park35
(* arm_cpu_kick *)
| Kick44 (t : nat)
(* arch_suspend_cpu *)
| Susp52 (t : nat)
| Susp54 (t : nat)
| Susp55 (t : nat)
| Susp57 (t : nat) (ts : bool)
| Susp60 (t : nat)
| Susp62 (t : nat)
(* arch_resume_cpu *)
| Res72 (t : nat)
| Res74 (t : nat)
| Res76 (t : nat)
(* arch_reset_cpu, arch_park_cpu *)
| Reset81 (t : nat)
| ParkReq88 (t : nat)
(* check_events *)
| Ev97
| Ev100
| Ev101
| Ev103
| Ev105
| Ev108
| Ev110
| Ev111
| Ev113
| Ev118
| Ev119
| Ev120
| Ev122
| Ev130
| Ev132 (r : bool)
| Ev133 (r : bool)
| Ev134 (r : bool)
| Ev137 (r : bool)
| Ev143 (r : bool)
| Ev146
(* arch_handle_sgi, arch_handle_phys_irq *)
| Sgi152 (irqn count_event : Z)
| Irq174 (irqn count_event : Z)
(* arch_cell_reset, arch_flush_cell_vcpu_caches, arch_config_commit *)
| CellReset190 (c : cell)
| Flush198 (rest : list nat)
| Commit207 (c : option cell)
(* arch_panic_stop *)
| Panic212.

(** ** System state *)
Record system := mk_system {
  percpu : nat -> per_cpu;
  pcof : nat -> pc;
  trace : list (nat * event)      (* most recent first *)
}.

Definition upd {A : Type} (f : nat -> A) (k : nat) (v : A) : nat -> A :=
  fun x => if Nat.eqb x k then v else f x.

Arguments upd : simpl never.

Definition goto (c : nat) (p : pc) (s : system) : system :=
  mk_system (percpu s) (upd (pcof s) c p) (trace s).

Definition emit (c : nat) (e : event) (s : system) : system :=
  mk_system (percpu s) (pcof s) ((c, e) :: trace s).

(** [per_cpu(t)->f = v], executed by core [c]. *)
Definition store (c t : nat) (f : field) (v : bool) (s : system) : system :=
  mk_system (upd (percpu s) t (set_field f v (percpu s t))) (pcof s)
    ((c, Write t f v) :: trace s).

Definition load (t : nat) (f : field) (s : system) : bool :=
  get_field f (percpu s t).

(** [spin_lock(&per_cpu(t)->control_lock)]: taken when free, otherwise the
    core keeps spinning at the same program point. *)
Definition spin_lock (c t : nat) (next : pc) (s : system) : system :=
  match control_lock (percpu s t) with
  | None =>
      goto c next
        (mk_system (upd (percpu s) t (set_lock (Some c) (percpu s t)))
           (pcof s) (trace s))
  | Some _ => s
  end.

Definition spin_unlock (t : nat) (s : system) : system :=
  mk_system (upd (percpu s) t (set_lock None (percpu s t))) (pcof s) (trace s).

Definition with_cpu_data (c : nat) (d : per_cpu) (s : system) : system :=
  mk_system (upd (percpu s) c d) (pcof s) (trace s).

(** [es] lists the calls in program order. *)
Definition emit_all (c : nat) (es : list event) (s : system) : system :=
  mk_system (percpu s) (pcof s) (rev (map (fun e => (c, e)) es) ++ trace s).

(** ** The two interrupt entry points, on the receiving core's own data

    Both run on the core that owns [cpu_data] and touch only its counters, so
    each is one function from the data to the new data, the calls made (in
    program order) and the result. *)

(** [arch_handle_sgi]: the third component tells whether [check_events] is
    entered (the [SGI_EVENT] case). *)
Definition arch_handle_sgi (cfg : platform) (cpu_data : per_cpu)
    (irqn count_event : Z) : per_cpu * list event * bool :=
  if (irqn =? SGI_INJECT cfg)%Z then
    (stat_add cfg JAILHOUSE_CPU_STAT_VMEXITS_VSGI count_event cpu_data,
     [irqchip_inject_pending], false)
  else if (irqn =? SGI_EVENT cfg)%Z then
    (stat_add cfg JAILHOUSE_CPU_STAT_VMEXITS_MANAGEMENT count_event cpu_data,
     [], true)
  else
    (cpu_data, [printk_unknown_sgi irqn], false).

(** [arch_handle_phys_irq]: the third component is the returned [bool]. *)
Definition arch_handle_phys_irq (cfg : platform) (cpu_data : per_cpu)
    (irqn count_event : Z) : per_cpu * list event * bool :=
  if (irqn =? maintenance_irq cfg)%Z then
    (stat_add cfg JAILHOUSE_CPU_STAT_VMEXITS_MAINTENANCE count_event cpu_data,
     [irqchip_inject_pending], true)
  else
    (stat_add cfg JAILHOUSE_CPU_STAT_VMEXITS_VIRQ count_event cpu_data,
     [irqchip_set_pending irqn], false).

(** ** The functions, statement by statement

    Each function maps the program point [p] of the executing core [c] to
    the effect of the statement at [p]. *)

(** [enter_cpu_off(cpu_data)], [cpu_data] being the executing core's. *)
Definition enter_cpu_off (c : nat) (p : pc) (s : system) : system :=
  match p with
  | Off22 k => goto c (Off23 k) (store c c F_park false s)
  | Off23 k =>
      goto c (match k with
              | K_check_events => Ev132 false       (* break *)
              | K_arm_cpu_park => Park32
              end)
        (store c c F_wait_for_poweron true s)
  | _ => s
  end.

(** [arm_cpu_park()]. *)
Definition arm_cpu_park (c : nat) (p : pc) (s : system) : system :=
  match p with
  | Park30 => spin_lock c c (Off22 K_arm_cpu_park) s
  | Park32 => goto c Park34 (spin_unlock c s)
  | Park34 => goto c Park35 (emit c (arm_cpu_reset 0) s)
  | Park35 => goto c Idle (emit c arm_paging_vcpu_init_parking_mm s)
  | _ => s
  end.

(** [arm_cpu_kick(cpu_id)]: [sgi.targets = 1 << cpu_id; sgi.id = SGI_EVENT;
    irqchip_send_sgi(&sgi)]. *)
Definition arm_cpu_kick (cfg : platform) (c cpu_id : nat) (s : system)
    : system :=
  emit c (irqchip_send_sgi (Z.shiftl 1 (Z.of_nat cpu_id)) (SGI_EVENT cfg)) s.

(** [arch_suspend_cpu(t)]. *)
Definition arch_suspend_cpu (cfg : platform) (c : nat) (p : pc) (s : system)
    : system :=
  match p with
  | Susp52 t => spin_lock c t (Susp54 t) s
  | Susp54 t => goto c (Susp55 t) (store c t F_suspend_cpu true s)
  | Susp55 t => goto c (Susp57 t (load t F_cpu_suspended s)) s
  | Susp57 t ts => goto c (if ts then Idle else Susp60 t) (spin_unlock t s)
  | Susp60 t => goto c (Susp62 t) (arm_cpu_kick cfg c t s)
  | Susp62 t => if load t F_cpu_suspended s then goto c Idle s else s
  | _ => s
  end.

(** [arch_resume_cpu(t)]. *)
Definition arch_resume_cpu (c : nat) (p : pc) (s : system) : system :=
  match p with
  | Res72 t => spin_lock c t (Res74 t) s
  | Res74 t => goto c (Res76 t) (store c t F_suspend_cpu false s)
  | Res76 t => goto c Idle (spin_unlock t s)
  | _ => s
  end.

(** [arch_reset_cpu(t)]: the store, then [arch_resume_cpu(t)]. *)
Definition arch_reset_cpu (c : nat) (p : pc) (s : system) : system :=
  match p with
  | Reset81 t => goto c (Res72 t) (store c t F_reset true s)
  | _ => s
  end.

(** [arch_park_cpu(t)]: the store, then [arch_resume_cpu(t)]. *)
Definition arch_park_cpu (c : nat) (p : pc) (s : system) : system :=
  match p with
  | ParkReq88 t => goto c (Res72 t) (store c t F_park true s)
  | _ => s
  end.

(** [check_events(cpu_data)], [cpu_data] being the executing core's. *)
Definition check_events (cfg : platform) (c : nat) (p : pc) (s : system)
    : system :=
  match p with
  | Ev97 => spin_lock c c Ev100 s
  | Ev100 => goto c (if load c F_suspend_cpu s then Ev101 else Ev103) s
  | Ev101 => goto c Ev103 (store c c F_cpu_suspended true s)
  | Ev103 => goto c Ev105 (spin_unlock c s)
  | Ev105 => if load c F_suspend_cpu s then s else goto c Ev108 s
  | Ev108 => spin_lock c c Ev110 s
  | Ev110 => goto c (if load c F_suspend_cpu s then Ev130 else Ev111) s
  | Ev111 => goto c Ev113 (store c c F_cpu_suspended false s)
  | Ev113 => goto c (if load c F_park s then Off22 K_check_events else Ev118) s
  | Ev118 => goto c (if load c F_reset s then Ev119 else Ev130) s
  | Ev119 => goto c Ev120 (store c c F_reset false s)
  | Ev120 =>
      goto c (if (cpu_on_entry (percpu s c) =? PSCI_INVALID_ADDRESS cfg)%Z
              then Off22 K_check_events
              else Ev122) s
  | Ev122 => goto c (Ev132 true) (store c c F_wait_for_poweron false s)
  | Ev130 => goto c (if load c F_suspend_cpu s then Ev100 else Ev132 false) s
  | Ev132 r => goto c (if load c F_flush_vcpu_caches s then Ev133 r else Ev137 r) s
  | Ev133 r => goto c (Ev134 r) (store c c F_flush_vcpu_caches false s)
  | Ev134 r => goto c (Ev137 r) (emit c arm_paging_vcpu_flush_tlbs s)
  | Ev137 r => goto c (Ev143 r) (spin_unlock c s)
  | Ev143 r =>
      goto c (if load c F_wait_for_poweron s then Park30
              else if r then Ev146 else Idle) s
  | Ev146 => goto c Idle (emit c (arm_cpu_reset (cpu_on_entry (percpu s c))) s)
  | _ => s
  end.

(** [arch_cell_reset(cell)]. *)
Definition arch_cell_reset (c : nat) (p : pc) (s : system) : system :=
  match p with
  | CellReset190 cl =>
      goto c Idle (emit c (arm_cell_dcaches_flush_invalidate cl) s)
  | _ => s
  end.

(** [arch_flush_cell_vcpu_caches(cell)]: one iteration of [for_each_cpu]
    per step. *)
Definition arch_flush_cell_vcpu_caches (c : nat) (p : pc) (s : system)
    : system :=
  match p with
  | Flush198 [] => goto c Idle s
  | Flush198 (cpu :: rest) =>
      goto c (Flush198 rest)
        (if Nat.eqb cpu c
         then emit c arm_paging_vcpu_flush_tlbs s
         else store c cpu F_flush_vcpu_caches true s)
  | _ => s
  end.

(** [arch_config_commit(cell_added_removed)]. *)
Definition arch_config_commit (c : nat) (p : pc) (s : system) : system :=
  match p with
  | Commit207 cl => goto c Idle (emit c (irqchip_config_commit cl) s)
  | _ => s
  end.

(** ** One statement of core [c] *)
Definition exec (cfg : platform) (c : nat) (s : system) : system :=
  match pcof s c with
  | Idle => s
  | (Off22 _ | Off23 _) as p => enter_cpu_off c p s
  | (Park30 | Park32 | Park34 | Park35) as p => arm_cpu_park c p s
  | Kick44 t => goto c Idle (arm_cpu_kick cfg c t s)
  | (Susp52 _ | Susp54 _ | Susp55 _ | Susp57 _ _ | Susp60 _ | Susp62 _) as p =>
      arch_suspend_cpu cfg c p s
  | (Res72 _ | Res74 _ | Res76 _) as p => arch_resume_cpu c p s
  | Reset81 _ as p => arch_reset_cpu c p s
  | ParkReq88 _ as p => arch_park_cpu c p s
  | (Ev97 | Ev100 | Ev101 | Ev103 | Ev105 | Ev108 | Ev110 | Ev111 | Ev113
    | Ev118 | Ev119 | Ev120 | Ev122 | Ev130
    | Ev132 _ | Ev133 _ | Ev134 _ | Ev137 _ | Ev143 _ | Ev146) as p =>
      check_events cfg c p s
  (* arch_handle_sgi(cpu_data, irqn, count_event); SGI_EVENT goes on into
     check_events *)
  | Sgi152 irqn count_event =>
      let '(d, es, events) := arch_handle_sgi cfg (percpu s c) irqn count_event in
      goto c (if events then Ev97 else Idle) (emit_all c es (with_cpu_data c d s))
  (* arch_handle_phys_irq(cpu_data, irqn, count_event) *)
  | Irq174 irqn count_event =>
      let '(d, es, _) := arch_handle_phys_irq cfg (percpu s c) irqn count_event in
      goto c Idle (emit_all c es (with_cpu_data c d s))
  | CellReset190 _ as p => arch_cell_reset c p s
  | Flush198 _ as p => arch_flush_cell_vcpu_caches c p s
  | Commit207 _ as p => arch_config_commit c p s
  (* arch_panic_stop(): "1: wfi; b 1b" *)
  | Panic212 => s
  end.

(** ** Entry into the public functions

    A core that is not executing code of this file ([Idle]: it runs its
    guest, possibly the parking loop) may enter any of the functions. *)
Inductive call :=
| Call_arm_cpu_park
| Call_arm_cpu_kick (cpu_id : nat)
| Call_arch_suspend_cpu (cpu_id : nat)
| Call_arch_resume_cpu (cpu_id : nat)
| Call_arch_reset_cpu (cpu_id : nat)
| Call_arch_park_cpu (cpu_id : nat)
| Call_arch_handle_sgi (irqn count_event : Z)
| Call_arch_handle_phys_irq (irqn count_event : Z)
| Call_arch_cell_reset (c : cell)
| Call_arch_flush_cell_vcpu_caches (c : cell)
| Call_arch_config_commit (c : option cell)
| Call_arch_panic_stop
| Call_arch_panic_park
| Call_arch_shutdown.

Definition entry (f : call) : pc :=
  match f with
  | Call_arm_cpu_park => Park30
  | Call_arm_cpu_kick t => Kick44 t
  | Call_arch_suspend_cpu t => Susp52 t
  | Call_arch_resume_cpu t => Res72 t
  | Call_arch_reset_cpu t => Reset81 t
  | Call_arch_park_cpu t => ParkReq88 t
  | Call_arch_handle_sgi irqn n => Sgi152 irqn n
  | Call_arch_handle_phys_irq irqn n => Irq174 irqn n
  | Call_arch_cell_reset cl => CellReset190 cl
  | Call_arch_flush_cell_vcpu_caches cl => Flush198 (cpu_set cl)
  | Call_arch_config_commit cl => Commit207 cl
  | Call_arch_panic_stop => Panic212
  | Call_arch_panic_park => Park30      (* alias of arm_cpu_park *)
  | Call_arch_shutdown => Idle          (* empty body *)
  end.

Definition start (c : nat) (f : call) (s : system) : system :=
  match pcof s c with
  | Idle => goto c (entry f) s
  | _ => s
  end.

(** ** Schedules *)
Inductive label :=
| Exec (c : nat)
| Start (c : nat) (f : call).

Definition step (cfg : platform) (l : label) (s : system) : system :=
  match l with
  | Exec c => exec cfg c s
  | Start c f => start c f s
  end.

Fixpoint run (cfg : platform) (sched : list label) (s : system) : system :=
  match sched with
  | [] => s
  | l :: rest => run cfg rest (step cfg l s)
  end.

Definition actor (l : label) : nat :=
  match l with
  | Exec c => c
  | Start c _ => c
  end.

(** ** Lock ownership

    The lock, if any, that core [c] holds when it is at program point [p]:
    the points between a [spin_lock] and the matching [spin_unlock]. *)
Definition holds_lock (c : nat) (p : pc) : option nat :=
  match p with
  | Off22 _ | Off23 _ | Park32 => Some c
  | Susp54 t | Susp55 t | Susp57 t _ => Some t
  | Res74 t | Res76 t => Some t
  | Ev100 | Ev101 | Ev103 => Some c
  | Ev110 | Ev111 | Ev113 | Ev118 | Ev119 | Ev120 | Ev122 | Ev130 => Some c
  | Ev132 _ | Ev133 _ | Ev134 _ | Ev137 _ => Some c
  | _ => None
  end.

Definition lock_inv (s : system) : Prop :=
  forall c t, holds_lock c (pcof s c) = Some t ->
              control_lock (percpu s t) = Some c.

(** Schedules in which core [c] enters no further function. *)
Definition no_start (c : nat) (l : label) : Prop :=
  match l with
  | Exec _ => True
  | Start c' _ => c' <> c
  end.

(** The calls and stores made by core [c], most recent first. *)
Definition by_core (c : nat) (tr : list (nat * event)) : list event :=
  map snd (filter (fun e => Nat.eqb (fst e) c) tr).

(** ** Invariants of one activation of a function on core [c]

    [tr0] is the history at the moment the function is entered; [new] is
    what has been appended since. *)

(** [arm_cpu_park] on core [c]. *)
Definition park_inv (c : nat) (tr0 : list (nat * event)) (s : system) : Prop :=
  exists new, trace s = new ++ tr0 /\
  match pcof s c with
  | Park30 | Off22 K_arm_cpu_park => by_core c new = []
  | Off23 K_arm_cpu_park => by_core c new = [Write c F_park false]
  | Park32 | Park34 =>
      by_core c new = [Write c F_wait_for_poweron true; Write c F_park false] /\
      wait_for_poweron (percpu s c) = true
  | Park35 =>
      by_core c new = [arm_cpu_reset 0;
                       Write c F_wait_for_poweron true; Write c F_park false] /\
      wait_for_poweron (percpu s c) = true
  | Idle =>
      by_core c new = [arm_paging_vcpu_init_parking_mm; arm_cpu_reset 0;
                       Write c F_wait_for_poweron true; Write c F_park false] /\
      wait_for_poweron (percpu s c) = true
  | _ => False
  end.

(** Program points of the reset-entry transition of [check_events]: from
    the store [wait_for_poweron = false] (local [reset = true]) to the call
    [arm_cpu_reset(cpu_data->cpu_on_entry)]. *)
Definition reset_entry (p : pc) : bool :=
  match p with
  | Ev122 | Ev146 => true
  | Ev132 r | Ev133 r | Ev134 r | Ev137 r | Ev143 r => r
  | _ => false
  end.

(** Program points of the [reset] check and of what follows it when the
    flag is found set. *)
Definition reset_check (p : pc) : bool :=
  match p with
  | Ev118 | Ev119 | Ev120 => true
  | _ => false
  end.

(** Program points of the power-off path: [enter_cpu_off] and
    [arm_cpu_park]. *)
Definition power_off (p : pc) : bool :=
  match p with
  | Off22 _ | Off23 _ | Park30 | Park32 | Park34 | Park35 => true
  | _ => false
  end.

(** The powered-off transition has been made by core [c]. *)
Definition powered_off (c : nat) (new : list (nat * event)) (s : system) : Prop :=
  In (c, Write c F_park false) new /\
  In (c, Write c F_wait_for_poweron true) new /\
  wait_for_poweron (percpu s c) = true.

(** Core [c] has made the powered-off transition and gone through
    [arm_cpu_park]. *)
Definition parked (c : nat) (new : list (nat * event)) (s : system) : Prop :=
  powered_off c new s /\
  In (c, arm_cpu_reset 0) new /\
  In (c, arm_paging_vcpu_init_parking_mm) new.

(** [check_events] on core [c], entered with [park] set. *)
Definition events_park_inv (c : nat) (tr0 : list (nat * event)) (s : system)
    : Prop :=
  exists new, trace s = new ++ tr0 /\
  reset (percpu s c) = true /\
  match pcof s c with
  | Ev97 | Ev100 | Ev101 | Ev103 | Ev105 | Ev108 | Ev110 | Ev111 | Ev113 =>
      park (percpu s c) = true
  | Ev130 => park (percpu s c) = true /\ suspend_cpu (percpu s c) = true
  | Off22 K_check_events => True
  | Off23 K_check_events => In (c, Write c F_park false) new
  | Ev132 false | Ev133 false | Ev134 false | Ev137 false | Ev143 false
  | Park30 | Off22 K_arm_cpu_park | Off23 K_arm_cpu_park
  | Park32 | Park34 => powered_off c new s
  | Park35 => powered_off c new s /\ In (c, arm_cpu_reset 0) new
  | Idle => parked c new s
  | _ => False
  end.

(** A park request for core [c] has been seen: the flag was set on entry
    ([p0]) or some core has stored it since. *)
Definition park_requested (c : nat) (p0 : bool) (new : list (nat * event))
    : Prop :=
  p0 = true \/ exists c', In (c', Write c F_park true) new.

(** [check_events] on core [c], entered with [reset] set and no valid
    entry address. *)
Definition events_invalid_inv (cfg : platform) (c : nat) (p0 : bool)
    (tr0 : list (nat * event)) (s : system) : Prop :=
  exists new, trace s = new ++ tr0 /\
  cpu_on_entry (percpu s c) = PSCI_INVALID_ADDRESS cfg /\
  (park (percpu s c) = true -> park_requested c p0 new) /\
  match pcof s c with
  | Ev97 | Ev100 | Ev101 | Ev103 | Ev105 | Ev108 | Ev110 | Ev111 | Ev113
  | Ev118 =>
      reset (percpu s c) = true
  | Ev130 => reset (percpu s c) = true /\ suspend_cpu (percpu s c) = true
  | Ev119 => True
  | Ev120 => In (c, Write c F_reset false) new
  | Off22 K_check_events =>
      In (c, Write c F_reset false) new \/ park_requested c p0 new
  | Off23 K_check_events =>
      (In (c, Write c F_reset false) new \/ park_requested c p0 new) /\
      In (c, Write c F_park false) new
  | Ev132 false | Ev133 false | Ev134 false | Ev137 false | Ev143 false
  | Park30 | Off22 K_arm_cpu_park | Off23 K_arm_cpu_park
  | Park32 | Park34 =>
      (In (c, Write c F_reset false) new \/ park_requested c p0 new) /\
      powered_off c new s
  | Park35 =>
      (In (c, Write c F_reset false) new \/ park_requested c p0 new) /\
      powered_off c new s /\ In (c, arm_cpu_reset 0) new
  | Idle =>
      (In (c, Write c F_reset false) new \/ park_requested c p0 new) /\
      parked c new s
  | _ => False
  end.

(** The reset-entry transition to [e] has been made by core [c]. *)
Definition reset_entered (c : nat) (e : Z) (new : list (nat * event))
    (s : system) : Prop :=
  In (c, Write c F_reset false) new /\
  In (c, Write c F_wait_for_poweron false) new /\
  wait_for_poweron (percpu s c) = false.

(** [check_events] on core [c], entered with [reset] set, a valid entry
    address [e] and [park] clear. *)
Definition events_reset_inv (c : nat) (e : Z) (tr0 : list (nat * event))
    (s : system) : Prop :=
  exists new, trace s = new ++ tr0 /\
  cpu_on_entry (percpu s c) = e /\
  (park (percpu s c) = true -> park_requested c false new) /\
  match pcof s c with
  | Ev97 | Ev100 | Ev101 | Ev103 | Ev105 | Ev108 | Ev110 | Ev111 | Ev113
  | Ev118 =>
      reset (percpu s c) = true
  | Ev130 => reset (percpu s c) = true /\ suspend_cpu (percpu s c) = true
  | Ev119 => True
  | Ev120 | Ev122 => In (c, Write c F_reset false) new
  | Ev132 true | Ev133 true | Ev134 true | Ev137 true | Ev143 true | Ev146 =>
      reset_entered c e new s
  | Idle =>
      (reset_entered c e new s /\
       exists earlier, by_core c new = arm_cpu_reset e :: earlier) \/
      park_requested c false new
  | Off22 _ | Off23 _ | Park30 | Park32 | Park34 | Park35
  | Ev132 false | Ev133 false | Ev134 false | Ev137 false | Ev143 false =>
      park_requested c false new
  | _ => False
  end.

(** Number of own steps [check_events] (with the power-off path behind it)
    needs at most from a program point, when no suspension is requested. *)
Definition distance (p : pc) : nat :=
  match p with
  | Idle => 0
  | Park35 | Ev146 => 1
  | Park34 => 2
  | Park32 => 3
  | Off23 K_arm_cpu_park => 4
  | Off22 K_arm_cpu_park => 5
  | Park30 => 6
  | Ev143 _ => 7
  | Ev137 _ => 8
  | Ev134 _ => 9
  | Ev133 _ => 10
  | Ev132 _ => 11
  | Ev122 | Ev130 | Off23 K_check_events => 12
  | Off22 K_check_events => 13
  | Ev120 => 14
  | Ev119 => 15
  | Ev118 => 16
  | Ev113 => 17
  | Ev111 => 18
  | Ev110 => 19
  | Ev108 => 20
  | Ev105 => 21
  | Ev103 => 22
  | Ev101 => 23
  | Ev100 => 24
  | Ev97 => 25
  | _ => 0
  end.

(** The program points of an event-check pass, the power-off path
    included. *)
Definition in_pass (p : pc) : bool :=
  match p with
  | Idle | Off22 _ | Off23 _ | Park30 | Park32 | Park34 | Park35
  | Ev97 | Ev100 | Ev101 | Ev103 | Ev105 | Ev108 | Ev110 | Ev111 | Ev113
  | Ev118 | Ev119 | Ev120 | Ev122 | Ev130
  | Ev132 _ | Ev133 _ | Ev134 _ | Ev137 _ | Ev143 _ | Ev146 => true
  | _ => false
  end.

(** Core [c] runs alone, unsuspended: its lock is free whenever it does not
    hold it itself. *)
Definition unhindered (c : nat) (s : system) : Prop :=
  in_pass (pcof s c) = true /\
  suspend_cpu (percpu s c) = false /\
  (holds_lock c (pcof s c) = None -> control_lock (percpu s c) = None).

(** ** Suspension *)

(** Step [l], taken in state [s], is not the store [suspend_cpu = false] of
    [arch_resume_cpu(t)] (line 74, also reached through [arch_reset_cpu] and
    [arch_park_cpu]). *)
Definition not_resume_store (t : nat) (l : label) (s : system) : Prop :=
  match l with
  | Exec c => pcof s c <> Res74 t
  | Start _ _ => True
  end.

(** No core executes that store while [sched] runs from [s]. *)
Fixpoint resume_free (cfg : platform) (t : nat) (sched : list label)
    (s : system) : Prop :=
  match sched with
  | [] => True
  | l :: rest =>
      not_resume_store t l s /\ resume_free cfg t rest (step cfg l s)
  end.

(** Core [t] is suspended and is not about to leave that state. *)
Definition suspended (t : nat) (s : system) : Prop :=
  suspend_cpu (percpu s t) = true /\
  cpu_suspended (percpu s t) = true /\
  pcof s t <> Ev111.



(** Number of SGIs sent so far. *)
Definition is_send_sgi (e : nat * event) : bool :=
  match snd e with
  | irqchip_send_sgi _ _ => true
  | _ => false
  end.

Definition signals (tr : list (nat * event)) : nat :=
  length (filter is_send_sgi tr).

(** [arch_suspend_cpu(t)] on core [a] from line 55 on, when the target is
    found suspended. *)
Definition suspend_again_inv (a t : nat) (tr0 : list (nat * event))
    (s : system) : Prop :=
  exists new, trace s = new ++ tr0 /\ by_core a new = [] /\
  match pcof s a with
  | Susp55 t' => t' = t /\ cpu_suspended (percpu s t) = true
  | Susp57 t' ts => t' = t /\ ts = true
  | Idle => True
  | _ => False
  end.

(** ** Cache flush requests *)

(** Core [t] gets a flush request from [arch_flush_cell_vcpu_caches] run on
    core [this] over the cores [set]. *)
Definition flush_requested (this : nat) (set : list nat) (t : nat) : bool :=
  existsb (Nat.eqb t) set && negb (Nat.eqb t this).

(** ** A concrete platform and concrete states, used to exercise the model *)

(** The values of the ARMv7 port: SGI 0 injects, SGI 1 is the management
    event, the invalid PSCI address is all ones, counters are [u32]. *)
Definition armv7 : platform :=
  {| SGI_INJECT := 0;
     SGI_EVENT := 1;
     PSCI_INVALID_ADDRESS := 4294967295;
     maintenance_irq := 25;
     stat_bits := 32 |}.

Definition cpu_data0 : per_cpu :=
  mk_per_cpu None false false false false 4294967295 false false (fun _ => 0%Z).

(** All cores in their guests, no lock held, nothing requested. *)
Definition boot : system := mk_system (fun _ => cpu_data0) (fun _ => Idle) [].

(** As [boot], with the data of core 0 replaced. *)
Definition boot_with (d : per_cpu) : system :=
  mk_system (fun c => if Nat.eqb c 0 then d else cpu_data0) (fun _ => Idle) [].

Definition requests (suspend park reset : bool) (entry : Z)
    (wait flush : bool) : per_cpu :=
  mk_per_cpu None suspend false park reset entry wait flush (fun _ => 0%Z).

(** Core 0 takes one management SGI and is at the entry of [check_events]. *)
Definition event_received (d : per_cpu) : system :=
  run armv7 [Start 0 (Call_arch_handle_sgi 1 1); Exec 0] (boot_with d).

(** Core 0 running [check_events] while core 1 files a reset request for
    it. *)
Definition with_reset_request : list label :=
  [Exec 0; Exec 0; Start 1 (Call_arch_reset_cpu 0); Exec 0; Exec 1; Exec 0;
   Exec 1; Exec 0; Exec 1; Exec 0; Exec 1; Exec 0; Exec 0; Exec 0]
  ++ repeat (Exec 0) 20.

(** Core 0 runs [arm_cpu_park] while core 1 files a park request for it. *)
Definition park_call : list label :=
  [Exec 0; Start 1 (Call_arch_park_cpu 0); Exec 0; Exec 1; Exec 0; Exec 1;
   Exec 0; Exec 0; Exec 1; Exec 1; Exec 0].

(** Core 2 holds the lock of core 0 (it is at line 54 of
    [arch_suspend_cpu(0)]) and core 1 is at line 81 of
    [arch_reset_cpu(0)]. *)
Definition reset_request_under_foreign_lock : system :=
  run armv7 [Start 2 (Call_arch_suspend_cpu 0); Exec 2;
             Start 1 (Call_arch_reset_cpu 0)] boot.

(** Core 0 suspends core 1: request, SGI, acknowledgement by core 1, return
    of the call on core 0. *)
Definition suspend_call : list label :=
  [Exec 0; Exec 0; Exec 0; Exec 0; Exec 0;
   Start 1 (Call_arch_handle_sgi 1 1); Exec 1; Exec 1; Exec 1; Exec 1;
   Exec 0].

(** Core 0 has just called [arch_suspend_cpu(1)]. *)
Definition suspend_requested : system :=
  start 0 (Call_arch_suspend_cpu 1) boot.


(** Core 1 has been suspended by core 0 and spins at line 105; core 2 now
    calls [arch_suspend_cpu(1)] and is about to read [cpu_suspended]. *)
Definition second_suspend : system :=
  run armv7
    (suspend_call ++
     [Exec 1; Exec 1; Start 2 (Call_arch_suspend_cpu 1); Exec 2; Exec 2])
    suspend_requested.




(** ** Further invariants *)

(** A lock is held only by a core that is between the [spin_lock] and the
    [spin_unlock] on it. *)
Definition lock_exact (s : system) : Prop :=
  forall c t, control_lock (percpu s t) = Some c ->
              holds_lock c (pcof s c) = Some t.

(** All cores in their guests and no lock taken. *)
Definition quiescent (s : system) : Prop :=
  (forall c, pcof s c = Idle) /\
  (forall t, control_lock (percpu s t) = None).

(** Program points of the suspension loop of [check_events], from the read
    of line 100 to the store of line 111. *)
Definition in_suspension (p : pc) : bool :=
  match p with
  | Ev100 | Ev101 | Ev103 | Ev105 | Ev108 | Ev110 | Ev111 | Ev130 => true
  | _ => false
  end.

(** [cpu_suspended] is set only while its owner is in the suspension loop,
    and at the loop test of line 130 only with [suspend_cpu] set. *)
Definition acknowledged_inside (s : system) : Prop :=
  forall t, cpu_suspended (percpu s t) = true ->
            in_suspension (pcof s t) = true /\
            (pcof s t = Ev130 -> suspend_cpu (percpu s t) = true).



(** [check_events] on core [c], entered with [suspend_cpu] set, as long as
    no resume store on [c] happens. *)
Definition held_inv (c : nat) (tr0 : list (nat * event)) (s : system) : Prop :=
  exists new, trace s = new ++ tr0 /\
  suspend_cpu (percpu s c) = true /\
  (forall e, In e (by_core c new) -> e = Write c F_cpu_suspended true) /\
  match pcof s c with
  | Ev97 | Ev100 | Ev101 => True
  | Ev103 | Ev105 => cpu_suspended (percpu s c) = true
  | _ => False
  end.

(** Among the actions [l] of core [c] (most recent first), a call of
    [arm_paging_vcpu_flush_tlbs] comes right after the store
    [flush_vcpu_caches = false]. *)
Definition flushed (c : nat) (l : list event) : Prop :=
  exists after before,
    l = after ++ arm_paging_vcpu_flush_tlbs
              :: Write c F_flush_vcpu_caches false :: before.

(** [check_events] on core [c], entered with [flush_vcpu_caches] set. *)
Definition flush_inv (c : nat) (tr0 : list (nat * event)) (s : system)
    : Prop :=
  exists new, trace s = new ++ tr0 /\
  match pcof s c with
  | Ev97 | Ev100 | Ev101 | Ev103 | Ev105 | Ev108 | Ev110 | Ev111 | Ev113
  | Ev118 | Ev119 | Ev120 | Ev122 | Ev130
  | Off22 K_check_events | Off23 K_check_events | Ev132 _ =>
      flush_vcpu_caches (percpu s c) = true
  | Ev133 _ => True
  | Ev134 _ =>
      exists before,
        by_core c new = Write c F_flush_vcpu_caches false :: before
  | Ev137 _ | Ev143 _ | Ev146
  | Park30 | Off22 K_arm_cpu_park | Off23 K_arm_cpu_park
  | Park32 | Park34 | Park35 | Idle => flushed c (by_core c new)
  | _ => False
  end.

(** ** The outcome of one event-check pass *)

(** No call of [arm_cpu_reset] among the actions [l]. *)
Definition no_reset_call (l : list event) : Prop :=
  forall e, ~ In (arm_cpu_reset e) l.

(** What core [c] has done ([l], most recent first) and where it stands
    when a pass has returned: parked, reset into the entry address [e], or
    neither. *)
Definition outcome (cfg : platform) (c : nat) (e : Z) (wait : bool)
    (l : list event) : Prop :=
  (wait = true /\
   exists rest, l = arm_paging_vcpu_init_parking_mm :: arm_cpu_reset 0 :: rest /\
                no_reset_call rest) \/
  (wait = false /\ e <> PSCI_INVALID_ADDRESS cfg /\
   exists rest, l = arm_cpu_reset e :: rest /\ no_reset_call rest /\
                In (Write c F_reset false) rest) \/
  (wait = false /\ no_reset_call l).

(** [check_events] on core [c], whatever is requested. *)
Definition outcome_inv (cfg : platform) (c : nat) (e : Z)
    (tr0 : list (nat * event)) (s : system) : Prop :=
  exists new, trace s = new ++ tr0 /\
  cpu_on_entry (percpu s c) = e /\
  match pcof s c with
  | Ev97 | Ev100 | Ev101 | Ev103 | Ev105 | Ev108 | Ev110 | Ev111 | Ev113
  | Ev118 | Ev119 | Ev130 | Off22 _ | Off23 _ | Park30
  | Ev132 false | Ev133 false | Ev134 false | Ev137 false | Ev143 false =>
      no_reset_call (by_core c new)
  | Ev120 =>
      no_reset_call (by_core c new) /\
      In (Write c F_reset false) (by_core c new)
  | Ev122 =>
      no_reset_call (by_core c new) /\
      In (Write c F_reset false) (by_core c new) /\
      e <> PSCI_INVALID_ADDRESS cfg
  | Ev132 true | Ev133 true | Ev134 true | Ev137 true | Ev143 true | Ev146 =>
      no_reset_call (by_core c new) /\
      In (Write c F_reset false) (by_core c new) /\
      e <> PSCI_INVALID_ADDRESS cfg /\
      wait_for_poweron (percpu s c) = false
  | Park32 | Park34 =>
      no_reset_call (by_core c new) /\ wait_for_poweron (percpu s c) = true
  | Park35 =>
      wait_for_poweron (percpu s c) = true /\
      exists rest, by_core c new = arm_cpu_reset 0 :: rest /\
                   no_reset_call rest
  | Idle => outcome cfg c e (wait_for_poweron (percpu s c)) (by_core c new)
  | _ => False
  end.

(** ** Waking a suspended core with a request *)

(** While [sched] runs from [s], no core other than [a] executes the store
    of [arch_resume_cpu(t)]. *)
Fixpoint only_resumer (cfg : platform) (a t : nat) (sched : list label)
    (s : system) : Prop :=
  match sched with
  | [] => True
  | l :: rest =>
      (actor l <> a -> not_resume_store t l s) /\
      only_resumer cfg a t rest (step cfg l s)
  end.

(** Core [a] is in [arch_reset_cpu(t)] and has not yet stored
    [suspend_cpu = false]; core [t] spins at line 105. *)
Definition reset_wake_before (a t : nat) (e : Z) (tr0 : list (nat * event))
    (s : system) : Prop :=
  pcof s t = Ev105 /\ suspend_cpu (percpu s t) = true /\
  cpu_on_entry (percpu s t) = e /\
  (exists new, trace s = new ++ tr0 /\
     (park (percpu s t) = true -> park_requested t false new)) /\
  match pcof s a with
  | Reset81 t' => t' = t
  | Res72 t' | Res74 t' => t' = t /\ reset (percpu s t) = true
  | _ => False
  end.

Definition reset_wake_inv (a t : nat) (e : Z) (tr0 : list (nat * event))
    (s : system) : Prop :=
  reset_wake_before a t e tr0 s \/
  ((pcof s a = Res76 t \/ pcof s a = Idle) /\ events_reset_inv t e tr0 s).

(** ** Parking a suspended core *)

(** [check_events] on core [c] from a point at which [park] is set,
    whatever [reset] is. *)
Definition park_pass_inv (c : nat) (tr0 : list (nat * event)) (s : system)
    : Prop :=
  exists new, trace s = new ++ tr0 /\
  match pcof s c with
  | Ev97 | Ev100 | Ev101 | Ev103 | Ev105 | Ev108 | Ev110 | Ev111 | Ev113 =>
      park (percpu s c) = true
  | Ev130 => park (percpu s c) = true /\ suspend_cpu (percpu s c) = true
  | Off22 K_check_events => True
  | Off23 K_check_events => In (c, Write c F_park false) new
  | Ev132 false | Ev133 false | Ev134 false | Ev137 false | Ev143 false
  | Park30 | Off22 K_arm_cpu_park | Off23 K_arm_cpu_park
  | Park32 | Park34 => powered_off c new s
  | Park35 => powered_off c new s /\ In (c, arm_cpu_reset 0) new
  | Idle => parked c new s
  | _ => False
  end.

(** Core [a] is in [arch_park_cpu(t)] and has not yet stored
    [suspend_cpu = false]; core [t] spins at line 105. *)
Definition park_wake_before (a t : nat) (tr0 : list (nat * event))
    (s : system) : Prop :=
  pcof s t = Ev105 /\ suspend_cpu (percpu s t) = true /\
  (exists new, trace s = new ++ tr0) /\
  match pcof s a with
  | ParkReq88 t' => t' = t
  | Res72 t' | Res74 t' => t' = t /\ park (percpu s t) = true
  | _ => False
  end.

Definition park_wake_inv (a t : nat) (tr0 : list (nat * event))
    (s : system) : Prop :=
  park_wake_before a t tr0 s \/
  ((pcof s a = Res76 t \/ pcof s a = Idle) /\ park_pass_inv t tr0 s).

(** ** Further concrete states *)

(** Core 0, with a valid entry address, has been suspended and spins at
    line 105; core 1 has just called [arch_reset_cpu(0)]. *)
Definition reset_of_suspended : system :=
  run armv7 [Exec 0; Exec 0; Exec 0; Exec 0; Start 1 (Call_arch_reset_cpu 0)]
    (event_received (requests true false false 32768 true false)).


(** Core 0 starts [arch_suspend_cpu(1)] and is about to read
    [cpu_suspended] under the lock of core 1; core 2 tries to take the same
    lock. *)
Definition contended : list label :=
  [Start 0 (Call_arch_suspend_cpu 1); Exec 0; Exec 0;
   Start 2 (Call_arch_resume_cpu 1); Exec 2; Exec 2].

(** Core 0 has been suspended and spins at line 105; core 1 has just called
    [arch_park_cpu(0)]. *)
Definition park_of_suspended : system :=
  run armv7 [Exec 0; Exec 0; Exec 0; Exec 0; Start 1 (Call_arch_park_cpu 0)]
    (event_received (requests true false true 32768 false false)).

(** * Properties *)

Section Control.

Variable cfg : platform.

Lemma upd_same (A : Type) (f : nat -> A) k v : upd f k v k = v.
Proof. unfold upd. now rewrite Nat.eqb_refl. Qed.

Lemma upd_other (A : Type) (f : nat -> A) k v x : x <> k -> upd f k v x = f x.
Proof. unfold upd. intros H. apply Nat.eqb_neq in H. now rewrite H. Qed.

(** The interrupt entry points touch the counters only. *)
Lemma arch_handle_sgi_frame d irqn n d' es b :
  arch_handle_sgi cfg d irqn n = (d', es, b) ->
  control_lock d' = control_lock d /\ cpu_on_entry d' = cpu_on_entry d /\
  forall f, get_field f d' = get_field f d.
Proof.
  unfold arch_handle_sgi.
  destruct (irqn =? SGI_INJECT cfg)%Z; [|destruct (irqn =? SGI_EVENT cfg)%Z];
    intros H; inversion H; subst; repeat split; intros f; now destruct f.
Qed.

Lemma arch_handle_phys_irq_frame d irqn n d' es b :
  arch_handle_phys_irq cfg d irqn n = (d', es, b) ->
  control_lock d' = control_lock d /\ cpu_on_entry d' = cpu_on_entry d /\
  forall f, get_field f d' = get_field f d.
Proof.
  unfold arch_handle_phys_irq.
  destruct (irqn =? maintenance_irq cfg)%Z;
    intros H; inversion H; subst; repeat split; intros f; now destruct f.
Qed.

Ltac unfold_ops :=
  unfold spin_lock, spin_unlock, goto, store, emit, emit_all, with_cpu_data,
    load, arm_cpu_kick in *.

(** Opens [exec] down to the statements of the functions. *)
Ltac unfold_exec :=
  unfold exec, enter_cpu_off, arm_cpu_park, arch_suspend_cpu, arch_resume_cpu,
    arch_reset_cpu, arch_park_cpu, check_events, arch_cell_reset,
    arch_flush_cell_vcpu_caches, arch_config_commit;
  cbv beta iota.

Ltac handler_facts :=
  repeat match goal with
  | H : arch_handle_sgi _ _ _ _ = _ |- _ =>
      let H1 := fresh "Hlk" in let H2 := fresh "Hen" in let H3 := fresh "Hfl" in
      destruct (arch_handle_sgi_frame _ _ _ _ _ _ H) as (H1 & H2 & H3);
      pose proof (H3 F_suspend_cpu); pose proof (H3 F_cpu_suspended);
      pose proof (H3 F_park); pose proof (H3 F_reset);
      pose proof (H3 F_wait_for_poweron); pose proof (H3 F_flush_vcpu_caches);
      clear H H3
  | H : arch_handle_phys_irq _ _ _ _ = _ |- _ =>
      let H1 := fresh "Hlk" in let H2 := fresh "Hen" in let H3 := fresh "Hfl" in
      destruct (arch_handle_phys_irq_frame _ _ _ _ _ _ H) as (H1 & H2 & H3);
      pose proof (H3 F_suspend_cpu); pose proof (H3 F_cpu_suspended);
      pose proof (H3 F_park); pose proof (H3 F_reset);
      pose proof (H3 F_wait_for_poweron); pose proof (H3 F_flush_vcpu_caches);
      clear H H3
  end.

Ltac break_match :=
  match goal with
  | |- context [match ?x with _ => _ end] => destruct x eqn:?
  end.

Lemma pcof_exec_other c c' s : c' <> c -> pcof (exec cfg c s) c' = pcof s c'.
Proof.
  intros Hne. unfold_exec. unfold_ops.
  repeat break_match; simpl; try reflexivity; try (apply upd_other; assumption).
Qed.

Lemma pcof_start_other c c' f s : c' <> c -> pcof (start c f s) c' = pcof s c'.
Proof.
  intros Hne. unfold start. destruct (pcof s c); try reflexivity.
  simpl. now apply upd_other.
Qed.

Lemma pcof_step_other l c s : actor l <> c -> pcof (step cfg l s) c = pcof s c.
Proof.
  destruct l; simpl; intros H.
  - apply pcof_exec_other. congruence.
  - apply pcof_start_other. congruence.
Qed.

Lemma percpu_start c f s : percpu (start c f s) = percpu s.
Proof. unfold start. now destruct (pcof s c). Qed.

Lemma trace_start c f s : trace (start c f s) = trace s.
Proof. unfold start. now destruct (pcof s c). Qed.

Lemma holds_lock_entry c f : holds_lock c (entry f) = None.
Proof. now destruct f. Qed.

Ltac eqb_cases :=
  repeat match goal with
  | H : context [Nat.eqb ?a ?b] |- _ => destruct (Nat.eqb_spec a b); subst
  | |- context [Nat.eqb ?a ?b] => destruct (Nat.eqb_spec a b); subst
  end.

Lemma lock_inv_start c f s : lock_inv s -> lock_inv (start c f s).
Proof.
  intros Hinv c' t. rewrite percpu_start. unfold start.
  destruct (pcof s c) eqn:Hpc; try apply Hinv.
  simpl. unfold upd. destruct (Nat.eqb_spec c' c); subst.
  - now rewrite holds_lock_entry.
  - apply Hinv.
Qed.

Lemma lock_inv_exec c s : lock_inv s -> lock_inv (exec cfg c s).
Proof.
  intros Hinv c' t.
  pose proof (Hinv c) as Hc. pose proof (Hinv c') as Hc'.
  unfold_exec. destruct (pcof s c) eqn:Hpc; unfold_ops; simpl in *;
    repeat break_match; handler_facts; simpl; unfold upd; simpl;
    repeat (eqb_cases; simpl in *; try congruence);
    intros Hh;
    try (specialize (Hc' _ Hh)); try (specialize (Hc _ eq_refl));
    simpl in *; try congruence; auto.
Qed.

Lemma lock_inv_step l s : lock_inv s -> lock_inv (step cfg l s).
Proof. destruct l; [apply lock_inv_exec | apply lock_inv_start]. Qed.

Ltac exec_cases c s :=
  unfold_exec; destruct (pcof s c) eqn:?; unfold_ops; simpl in *;
  repeat break_match; handler_facts; simpl; unfold upd; simpl;
  repeat (eqb_cases; simpl in *; try congruence).

(** *** What a step of one core does to the data of another core *)

(** [wait_for_poweron], [cpu_suspended], [cpu_on_entry] and the counters of
    a core are only ever written by that core; a remote core can set, but
    never clear, [park], [reset] and [flush_vcpu_caches]. *)
Lemma exec_remote c t s :
  c <> t ->
  let d := percpu s t in
  let d' := percpu (exec cfg c s) t in
  wait_for_poweron d' = wait_for_poweron d /\
  cpu_suspended d' = cpu_suspended d /\
  cpu_on_entry d' = cpu_on_entry d /\
  stats d' = stats d /\
  (park d = true -> park d' = true) /\
  (reset d = true -> reset d' = true) /\
  (flush_vcpu_caches d = true -> flush_vcpu_caches d' = true).
Proof.
  intros Hne. exec_cases c s; repeat split; auto.
Qed.

Lemma cpu_on_entry_exec c t s :
  cpu_on_entry (percpu (exec cfg c s) t) = cpu_on_entry (percpu s t).
Proof. exec_cases c s; auto. Qed.

(** While a core holds the lock of [t], no other core changes the lock,
    [suspend_cpu] or [cpu_suspended] of [t]. *)
Lemma exec_locked c h t s :
  lock_inv s -> control_lock (percpu s t) = Some h -> c <> h ->
  let d := percpu s t in
  let d' := percpu (exec cfg c s) t in
  control_lock d' = Some h /\
  suspend_cpu d' = suspend_cpu d /\
  cpu_suspended d' = cpu_suspended d.
Proof.
  intros Hinv Hl Hne. pose proof (Hinv c) as Hc.
  exec_cases c s; repeat split; auto;
    try (specialize (Hc _ eq_refl)); simpl in *; congruence.
Qed.

(** Every change of a control flag is recorded in the history. *)
Lemma flag_change_logged c t f s :
  get_field f (percpu (exec cfg c s) t) <> get_field f (percpu s t) ->
  trace (exec cfg c s) =
    (c, Write t f (get_field f (percpu (exec cfg c s) t))) :: trace s.
Proof.
  exec_cases c s; destruct f; simpl; try congruence; intros; exfalso; auto.
Qed.

(** The history only grows, by entries of the executing core. *)
Lemma trace_exec c s :
  exists evs, trace (exec cfg c s) = evs ++ trace s /\
              forall e, In e evs -> fst e = c.
Proof.
  unfold_exec; destruct (pcof s c) eqn:?; unfold_ops; simpl in *;
  repeat break_match; simpl;
  try (exists []; split; [reflexivity | simpl; tauto]);
  try (eexists [_]; split; [reflexivity | simpl; intros ? [<- | []]; reflexivity]).
  all: eexists; split; [reflexivity|];
    intros e He; apply in_rev in He; apply in_map_iff in He;
    destruct He as (x & <- & _); reflexivity.
Qed.

Lemma trace_step l s :
  exists evs, trace (step cfg l s) = evs ++ trace s /\
              forall e, In e evs -> fst e = actor l.
Proof.
  destruct l; simpl.
  - apply trace_exec.
  - exists []. rewrite trace_start. split; [reflexivity | simpl; tauto].
Qed.

Lemma run_cons l sched s : run cfg (l :: sched) s = run cfg sched (step cfg l s).
Proof. reflexivity. Qed.

Lemma run_app sched1 sched2 s :
  run cfg (sched1 ++ sched2) s = run cfg sched2 (run cfg sched1 s).
Proof. revert s. induction sched1; simpl; auto. Qed.

(** A property kept by every allowed step is kept by every allowed schedule. *)
Lemma run_invariant (I : system -> Prop) (ok : label -> Prop) :
  (forall l s, ok l -> I s -> I (step cfg l s)) ->
  forall sched s, Forall ok sched -> I s -> I (run cfg sched s).
Proof.
  intros Hstep sched. induction sched as [|l sched IH]; intros s Hok Hs.
  - exact Hs.
  - inversion Hok; subst. simpl. apply IH; auto.
Qed.

Lemma lock_inv_run sched s : lock_inv s -> lock_inv (run cfg sched s).
Proof.
  intros H. apply run_invariant with (ok := fun _ => True); auto.
  - intros; now apply lock_inv_step.
  - apply Forall_forall; auto.
Qed.

Lemma by_core_cons_same c e tr :
  by_core c ((c, e) :: tr) = e :: by_core c tr.
Proof. unfold by_core. simpl. now rewrite Nat.eqb_refl. Qed.

Lemma by_core_cons_other c c' e tr :
  c' <> c -> by_core c ((c', e) :: tr) = by_core c tr.
Proof.
  intros H. unfold by_core. simpl. apply Nat.eqb_neq in H. now rewrite H.
Qed.

Lemma by_core_app_other c c' evs tr :
  c' <> c -> (forall e, In e evs -> fst e = c') ->
  by_core c (evs ++ tr) = by_core c tr.
Proof.
  intros Hne. induction evs as [|[a e] evs IH]; intros H; simpl; auto.
  rewrite by_core_cons_other.
  - apply IH. intros; apply H; now right.
  - specialize (H (a, e) (or_introl eq_refl)). simpl in H. congruence.
Qed.

Lemma step_remote l t s :
  actor l <> t ->
  let d := percpu s t in
  let d' := percpu (step cfg l s) t in
  wait_for_poweron d' = wait_for_poweron d /\
  cpu_suspended d' = cpu_suspended d /\
  cpu_on_entry d' = cpu_on_entry d /\
  stats d' = stats d /\
  (park d = true -> park d' = true) /\
  (reset d = true -> reset d' = true) /\
  (flush_vcpu_caches d = true -> flush_vcpu_caches d' = true).
Proof.
  destruct l; simpl; intros H.
  - now apply exec_remote.
  - rewrite percpu_start. tauto.
Qed.

(** What a step of another core leaves in place for core [c]: its program
    point and its part of the history. *)
Lemma step_other_view l c tr0 new s :
  actor l <> c -> trace s = new ++ tr0 ->
  pcof (step cfg l s) c = pcof s c /\
  exists new', trace (step cfg l s) = new' ++ tr0 /\
               by_core c new' = by_core c new /\
               (forall e, In e new -> In e new') /\
               (forall e, In e new' -> In e new \/ fst e = actor l).
Proof.
  intros Hne Htr. split; [now apply pcof_step_other|].
  destruct (trace_step l s) as (evs & Hevs & Hby).
  exists (evs ++ new). rewrite Hevs, Htr, app_assoc. split; [reflexivity|].
  split; [now apply by_core_app_other with (c' := actor l)|].
  split; intros e He.
  - apply in_or_app; now right.
  - apply in_app_or in He. destruct He; auto.
Qed.

Ltac ex_new :=
  match goal with
  | Htr : trace ?s = ?new ++ ?tr0
    |- exists n, ?x :: trace ?s = n ++ ?tr0 /\ _ =>
      exists (x :: new); split; [rewrite Htr; reflexivity|]
  | Htr : trace ?s = ?new ++ ?tr0
    |- exists n, trace ?s = n ++ ?tr0 /\ _ =>
      exists new; split; [exact Htr|]
  end.

Ltac split_tests :=
  repeat match goal with
  | |- context [match control_lock ?d with _ => _ end] =>
      destruct (control_lock d) eqn:?
  | |- context [if get_field ?f ?d then _ else _] =>
      destruct (get_field f d) eqn:?
  | |- context [if (?a =? ?b)%Z then _ else _] =>
      destruct (Z.eqb_spec a b)
  | |- context [if Nat.eqb ?a ?b then _ else _] =>
      destruct (Nat.eqb_spec a b)
  | |- context [if ?b then _ else _] => destruct b eqn:?
  end.

Ltac own_step Hpc :=
  unfold_exec; rewrite Hpc; unfold_ops; split_tests;
  simpl in *; rewrite ?upd_same; simpl; rewrite ?Hpc; try ex_new;
  rewrite ?by_core_cons_same.

(** *** [arm_cpu_park] *)
Lemma park_inv_step c tr0 l s :
  no_start c l -> park_inv c tr0 s -> park_inv c tr0 (step cfg l s).
Proof.
  intros Hl (new & Htr & H).
  destruct (Nat.eq_dec (actor l) c) as [Heq | Hne].
  - destruct l as [c0 | c0 f]; simpl in Heq, Hl; [subst c0 | congruence].
    simpl. unfold park_inv.
    destruct (pcof s c) eqn:Hpc; try contradiction;
      try (destruct k; try contradiction);
      own_step Hpc; intuition congruence.
  - destruct (step_other_view l c tr0 new s Hne Htr) as (Hpc & new' & Htr' & Hby & _).
    destruct (step_remote l c s Hne) as (Hw & _).
    exists new'. split; [exact Htr'|]. rewrite Hpc, Hby. simpl in Hw. rewrite Hw.
    exact H.
Qed.

Lemma park_inv_run c tr0 sched s :
  Forall (no_start c) sched -> park_inv c tr0 s ->
  park_inv c tr0 (run cfg sched s).
Proof.
  apply run_invariant. intros; now apply park_inv_step.
Qed.

(** Symbolic execution of one core running alone. *)
Ltac solo_step :=
  rewrite run_cons; unfold step; unfold_exec; unfold_ops;
  cbn -[run upd]; rewrite ?upd_same; cbn -[run upd].

(** C10.  [arm_cpu_park] on core [c], under any interleaving with the other
    cores: the two stores of [enter_cpu_off] are made while [c] holds its own
    [control_lock]; when the function returns, what [c] has done is, in
    order, clear [park], set [wait_for_poweron], call [arm_cpu_reset(0)]
    (entry 0, whatever [cpu_on_entry] holds) and then
    [arm_paging_vcpu_init(&parking_mm)], and [wait_for_poweron] is set; and
    the function does return once the lock is free. *)
Theorem arm_cpu_park_resets_to_entry_0 s0 c sched :
  lock_inv s0 -> pcof s0 c = Park30 -> Forall (no_start c) sched ->
  let s := run cfg sched s0 in
  ((pcof s c = Off22 K_arm_cpu_park \/ pcof s c = Off23 K_arm_cpu_park) ->
   control_lock (percpu s c) = Some c) /\
  (pcof s c = Idle ->
   exists new, trace s = new ++ trace s0 /\
     by_core c new = [arm_paging_vcpu_init_parking_mm; arm_cpu_reset 0;
                      Write c F_wait_for_poweron true; Write c F_park false] /\
     wait_for_poweron (percpu s c) = true) /\
  (control_lock (percpu s0 c) = None ->
   pcof (run cfg (repeat (Exec c) 6) s0) c = Idle).
Proof.
  intros Hlock Hpc Hsched s. split; [|split].
  - pose proof (lock_inv_run sched s0 Hlock c c) as H. fold s in H.
    intros [E | E]; rewrite E in H; now apply H.
  - intros Hidle.
    assert (park_inv c (trace s0) s) as (new & Htr & H).
    { apply park_inv_run; auto. exists []. rewrite Hpc. now split. }
    rewrite Hidle in H. exists new. tauto.
  - intros Hfree. cbn [repeat].
    solo_step. rewrite Hpc, Hfree. cbn -[run upd]. rewrite ?upd_same.
    do 5 solo_step. cbn [run pcof]. now rewrite upd_same.
Qed.

(** *** Termination of an event-check pass that runs alone *)
Lemma solo_progress c s :
  unhindered c s ->
  unhindered c (exec cfg c s) /\
  (pcof s c <> Idle -> distance (pcof (exec cfg c s) c) < distance (pcof s c)).
Proof.
  intros (Hin & Hsus & Hfree).
  unfold unhindered.
  destruct (pcof s c) eqn:Hpc; try discriminate; try destruct k;
    unfold_exec; rewrite Hpc; unfold_ops; simpl in *;
    try rewrite (Hfree eq_refl); rewrite ?Hsus;
    split_tests; simpl in *; rewrite ?upd_same, ?Hpc; simpl;
    repeat split; try congruence; try lia; auto.
Qed.

Lemma solo_returns c n : forall s,
  unhindered c s -> distance (pcof s c) <= n ->
  pcof (run cfg (repeat (Exec c) n) s) c = Idle.
Proof.
  induction n as [|n IH]; intros s Hun Hd.
  - simpl. destruct Hun as (Hin & _).
    destruct (pcof s c); try destruct k; simpl in *; try lia; try discriminate;
      reflexivity.
  - simpl. destruct (solo_progress c s Hun) as (Hun' & Hlt).
    apply IH; auto.
    assert (pcof s c = Idle \/ pcof s c <> Idle) as [Hi | Hni]
      by (destruct (pcof s c); auto; right; discriminate).
    + unfold_exec. rewrite Hi, Hi. simpl. lia.
    + specialize (Hlt Hni). lia.
Qed.

Lemma step_locked l h t s :
  lock_inv s -> control_lock (percpu s t) = Some h -> actor l <> h ->
  let d := percpu s t in
  let d' := percpu (step cfg l s) t in
  control_lock d' = Some h /\
  suspend_cpu d' = suspend_cpu d /\
  cpu_suspended d' = cpu_suspended d.
Proof.
  destruct l; simpl; intros Hinv Hl Hne.
  - now apply exec_locked.
  - rewrite percpu_start. auto.
Qed.

Lemma cpu_on_entry_step l t s :
  cpu_on_entry (percpu (step cfg l s) t) = cpu_on_entry (percpu s t).
Proof.
  destruct l; simpl; [apply cpu_on_entry_exec | now rewrite percpu_start].
Qed.

(** A park request that arrives is recorded in the history. *)
Lemma park_set_logged l c new tr0 s :
  trace s = new ++ tr0 ->
  park (percpu s c) = false -> park (percpu (step cfg l s) c) = true ->
  trace (step cfg l s) = ((actor l, Write c F_park true) :: new) ++ tr0.
Proof.
  intros Htr H0 H1. destruct l as [c0 | c0 f]; simpl in *.
  - rewrite (flag_change_logged c0 c F_park s); simpl; [|congruence].
    now rewrite H1, Htr.
  - rewrite percpu_start in H1. congruence.
Qed.

(** *** [check_events] entered with [park] set *)
Lemma events_park_inv_step c tr0 l s :
  lock_inv s -> no_start c l ->
  events_park_inv c tr0 s -> events_park_inv c tr0 (step cfg l s).
Proof.
  intros Hlock Hl (new & Htr & Hreset & H).
  destruct (Nat.eq_dec (actor l) c) as [Heq | Hne].
  - destruct l as [c0 | c0 f]; simpl in Heq, Hl; [subst c0 | congruence].
    simpl. unfold events_park_inv, parked, powered_off in *.
    destruct (pcof s c) eqn:Hpc; try contradiction;
      try (destruct k; try contradiction);
      try (destruct r; try contradiction);
      own_step Hpc; simpl; intuition congruence.
  - destruct (step_other_view l c tr0 new s Hne Htr)
      as (Hpc & new' & Htr' & Hby & Hsub & _).
    destruct (step_remote l c s Hne) as (Hw & _ & _ & _ & Hpk & Hrs & _).
    pose proof (Hlock c c) as Hown.
    exists new'. split; [exact Htr'|]. split; [now apply Hrs|]. rewrite Hpc.
    unfold parked, powered_off in *. simpl in Hw. rewrite Hw.
    destruct (pcof s c) eqn:Hpc0; try contradiction;
      try (destruct k; try contradiction);
      try (destruct r; try contradiction); simpl in *; try solve [intuition auto].
    destruct (step_locked l c c s Hlock (Hown eq_refl) Hne) as (_ & Hs & _).
    simpl in Hs. rewrite Hs. intuition auto.
Qed.

Lemma events_park_inv_run c tr0 sched s :
  Forall (no_start c) sched -> lock_inv s -> events_park_inv c tr0 s ->
  events_park_inv c tr0 (run cfg sched s).
Proof.
  intros Hs Hl Hi.
  apply (run_invariant (fun s => lock_inv s /\ events_park_inv c tr0 s)
           (no_start c)); auto.
  intros l s1 Hok [H1 H2]. split.
  - now apply lock_inv_step.
  - now apply events_park_inv_step.
Qed.

(** C1.  [check_events] entered on core [c] with both [park] and [reset] set,
    under any interleaving with the other cores: the pass never reaches the
    [reset] check nor the reset-entry transition, and [reset] stays set;
    when the pass has returned, the core has made the powered-off transition
    (it has cleared [park] and set [wait_for_poweron], which is still set)
    and has gone through [arm_cpu_park]; and the pass does return when the
    core is not suspended and its lock is free. *)
Theorem park_has_priority_over_reset s0 c sched :
  lock_inv s0 -> pcof s0 c = Ev97 ->
  park (percpu s0 c) = true -> reset (percpu s0 c) = true ->
  Forall (no_start c) sched ->
  let s := run cfg sched s0 in
  reset_check (pcof s c) = false /\
  reset_entry (pcof s c) = false /\
  reset (percpu s c) = true /\
  (pcof s c = Idle ->
   exists new, trace s = new ++ trace s0 /\ parked c new s) /\
  (control_lock (percpu s0 c) = None -> suspend_cpu (percpu s0 c) = false ->
   pcof (run cfg (repeat (Exec c) 25) s0) c = Idle).
Proof.
  intros Hlock Hpc Hpark Hreset Hsched s.
  assert (events_park_inv c (trace s0) s) as (new & Htr & Hr & H).
  { apply events_park_inv_run; auto. exists []. rewrite Hpc. now repeat split. }
  repeat split; auto.
  - destruct (pcof s c); try destruct k; try destruct r; simpl in *; tauto.
  - destruct (pcof s c); try destruct k; try destruct r; simpl in *; tauto.
  - intros Hidle. rewrite Hidle in H. exists new. tauto.
  - intros Hfree Hsus. apply solo_returns.
    + unfold unhindered. rewrite Hpc. simpl. auto.
    + rewrite Hpc. simpl. lia.
Qed.

(** *** [check_events] entered with [reset] set and no valid entry *)
Lemma park_requested_mono c p0 new new' :
  (forall e, In e new -> In e new') ->
  park_requested c p0 new -> park_requested c p0 new'.
Proof.
  intros Hsub [H | [c' H]]; [now left | right]. exists c'. now apply Hsub.
Qed.

Lemma park_requested_cons c p0 x new :
  park_requested c p0 new -> park_requested c p0 (x :: new).
Proof. apply park_requested_mono. intros; now right. Qed.

Lemma park_requested_other l c p0 new new' tr0 s :
  trace s = new ++ tr0 -> trace (step cfg l s) = new' ++ tr0 ->
  (forall e, In e new -> In e new') ->
  (park (percpu s c) = true -> park_requested c p0 new) ->
  park (percpu (step cfg l s) c) = true -> park_requested c p0 new'.
Proof.
  intros Htr Htr' Hsub Hreq Hp'.
  destruct (park (percpu s c)) eqn:Hp.
  - apply park_requested_mono with (new := new); auto.
  - pose proof (park_set_logged l c new tr0 s Htr Hp Hp') as Hlog.
    rewrite Htr' in Hlog. apply app_inv_tail in Hlog. subst new'.
    right. exists (actor l). now left.
Qed.

Lemma events_invalid_inv_step c p0 tr0 l s :
  lock_inv s -> no_start c l ->
  events_invalid_inv cfg c p0 tr0 s ->
  events_invalid_inv cfg c p0 tr0 (step cfg l s).
Proof.
  intros Hlock Hl (new & Htr & Hentry & Hreq & H).
  destruct (Nat.eq_dec (actor l) c) as [Heq | Hne].
  - destruct l as [c0 | c0 f]; simpl in Heq, Hl; [subst c0 | congruence].
    simpl. unfold events_invalid_inv, parked, powered_off in *.
    destruct (pcof s c) eqn:Hpc; try contradiction;
      try (destruct k; try contradiction);
      try (destruct r; try contradiction);
      own_step Hpc; simpl;
      try solve [intuition (eauto using park_requested_cons; congruence)].
  - destruct (step_other_view l c tr0 new s Hne Htr)
      as (Hpc & new' & Htr' & Hby & Hsub & _).
    destruct (step_remote l c s Hne) as (Hw & _ & _ & _ & Hpk & Hrs & _).
    pose proof (Hlock c c) as Hown.
    pose proof (park_requested_other l c p0 new new' tr0 s Htr Htr' Hsub Hreq)
      as Hreq'.
    pose proof (park_requested_mono c p0 new new' Hsub) as Hmono.
    exists new'. split; [exact Htr'|].
    split; [now rewrite cpu_on_entry_step|]. split; [exact Hreq'|].
    rewrite Hpc. unfold parked, powered_off in *. simpl in Hw. rewrite Hw.
    destruct (pcof s c) eqn:Hpc0; try contradiction;
      try (destruct k; try contradiction);
      try (destruct r; try contradiction); simpl in *; try solve [intuition auto].
    destruct (step_locked l c c s Hlock (Hown eq_refl) Hne) as (_ & Hs & _).
    simpl in Hs. rewrite Hs. intuition auto.
Qed.

Lemma events_invalid_inv_run c p0 tr0 sched s :
  Forall (no_start c) sched -> lock_inv s ->
  events_invalid_inv cfg c p0 tr0 s ->
  events_invalid_inv cfg c p0 tr0 (run cfg sched s).
Proof.
  intros Hs Hl Hi.
  apply (run_invariant (fun s => lock_inv s /\ events_invalid_inv cfg c p0 tr0 s)
           (no_start c)); auto.
  intros l s1 Hok [H1 H2]. split.
  - now apply lock_inv_step.
  - now apply events_invalid_inv_step.
Qed.

(** C4, as amended.  [check_events] entered on core [c] with [reset] set and
    [cpu_on_entry] equal to [PSCI_INVALID_ADDRESS], under any interleaving
    with the other cores: the pass never reaches the reset-entry transition;
    when it has returned, the core has made the powered-off transition
    ([park] cleared, [wait_for_poweron] set and still set) and has gone
    through [arm_cpu_park], and it has cleared [reset] unless a park request
    was pending ([park] set on entry, or stored by some core during the
    pass); and the pass does return when the core is not suspended and its
    lock is free. *)
Theorem reset_without_entry_powers_off s0 c sched :
  lock_inv s0 -> pcof s0 c = Ev97 ->
  reset (percpu s0 c) = true ->
  cpu_on_entry (percpu s0 c) = PSCI_INVALID_ADDRESS cfg ->
  Forall (no_start c) sched ->
  let s := run cfg sched s0 in
  reset_entry (pcof s c) = false /\
  (pcof s c = Idle ->
   exists new, trace s = new ++ trace s0 /\ parked c new s /\
     (In (c, Write c F_reset false) new \/
      park_requested c (park (percpu s0 c)) new)) /\
  (control_lock (percpu s0 c) = None -> suspend_cpu (percpu s0 c) = false ->
   pcof (run cfg (repeat (Exec c) 25) s0) c = Idle).
Proof.
  intros Hlock Hpc Hreset Hentry Hsched s.
  assert (events_invalid_inv cfg c (park (percpu s0 c)) (trace s0) s)
    as (new & Htr & He & Hreq & H).
  { apply events_invalid_inv_run; auto. exists []. rewrite Hpc.
    repeat split; auto. intros Hp. now left. }
  split; [|split].
  - destruct (pcof s c); try destruct k; try destruct r; simpl in *; tauto.
  - intros Hidle. rewrite Hidle in H. exists new. tauto.
  - intros Hfree Hsus. apply solo_returns.
    + unfold unhindered. rewrite Hpc. simpl. auto.
    + rewrite Hpc. simpl. lia.
Qed.

(** *** [check_events] entered with [reset] set and a valid entry *)
Lemma events_reset_inv_step c e tr0 l s :
  e <> PSCI_INVALID_ADDRESS cfg ->
  lock_inv s -> no_start c l ->
  events_reset_inv c e tr0 s -> events_reset_inv c e tr0 (step cfg l s).
Proof.
  intros He Hlock Hl (new & Htr & Hentry & Hreq & H).
  destruct (Nat.eq_dec (actor l) c) as [Heq | Hne].
  - destruct l as [c0 | c0 f]; simpl in Heq, Hl; [subst c0 | congruence].
    simpl. unfold events_reset_inv, reset_entered in *.
    destruct (pcof s c) eqn:Hpc; try contradiction;
      try (destruct k; try contradiction);
      try (destruct r; try contradiction);
      own_step Hpc; simpl;
      try solve [intuition (eauto using park_requested_cons; congruence)].
    rewrite Hentry. split; [reflexivity|].
    split; [intros Hp; apply park_requested_cons; auto|].
    left. split; [tauto | eexists; reflexivity].
  - destruct (step_other_view l c tr0 new s Hne Htr)
      as (Hpc & new' & Htr' & Hby & Hsub & _).
    destruct (step_remote l c s Hne) as (Hw & _ & _ & _ & Hpk & Hrs & _).
    pose proof (Hlock c c) as Hown.
    pose proof (park_requested_other l c false new new' tr0 s Htr Htr' Hsub Hreq)
      as Hreq'.
    pose proof (park_requested_mono c false new new' Hsub) as Hmono.
    exists new'. split; [exact Htr'|].
    split; [now rewrite cpu_on_entry_step|]. split; [exact Hreq'|].
    rewrite Hpc, Hby. unfold reset_entered in *. simpl in Hw. rewrite Hw.
    destruct (pcof s c) eqn:Hpc0; try contradiction;
      try (destruct k; try contradiction);
      try (destruct r; try contradiction); simpl in *; try solve [intuition auto].
    destruct (step_locked l c c s Hlock (Hown eq_refl) Hne) as (_ & Hs & _).
    simpl in Hs. rewrite Hs. intuition auto.
Qed.

Lemma events_reset_inv_run c e tr0 sched s :
  e <> PSCI_INVALID_ADDRESS cfg ->
  Forall (no_start c) sched -> lock_inv s ->
  events_reset_inv c e tr0 s ->
  events_reset_inv c e tr0 (run cfg sched s).
Proof.
  intros He Hs Hl Hi.
  apply (run_invariant (fun s => lock_inv s /\ events_reset_inv c e tr0 s)
           (no_start c)); auto.
  intros l s1 Hok [H1 H2]. split.
  - now apply lock_inv_step.
  - now apply events_reset_inv_step.
Qed.

(** A core inside an event-check pass stores no park request. *)
Lemma pass_step_no_park c t s :
  in_pass (pcof s c) = true ->
  in_pass (pcof (exec cfg c s) c) = true /\
  exists evs, trace (exec cfg c s) = evs ++ trace s /\
              forall c', ~ In (c', Write t F_park true) evs.
Proof.
  intros Hin.
  destruct (pcof s c) eqn:Hpc; try discriminate;
    unfold_exec; rewrite Hpc; unfold_ops; split_tests; simpl;
    rewrite ?upd_same, ?Hpc; simpl; (split; [reflexivity|]);
    try (exists []; split; [reflexivity | simpl; tauto]);
    (eexists [_]; split; [reflexivity | simpl; intros c' [E | []]; discriminate]).
Qed.

Lemma solo_trace c t n : forall s,
  in_pass (pcof s c) = true ->
  exists new, trace (run cfg (repeat (Exec c) n) s) = new ++ trace s /\
              forall c', ~ In (c', Write t F_park true) new.
Proof.
  induction n as [|n IH]; intros s Hin.
  - exists []. simpl. tauto.
  - simpl. destruct (pass_step_no_park c t s Hin) as (Hin' & evs & Hevs & Hno).
    destruct (IH _ Hin') as (new & Hnew & Hno').
    exists (new ++ evs). rewrite Hnew, Hevs, app_assoc. split; [reflexivity|].
    intros c' Hc. apply in_app_or in Hc. destruct Hc as [Hc | Hc].
    + now apply (Hno' c').
    + now apply (Hno c').
Qed.

(** C5, as amended.  [check_events] entered on a parked core [c]
    ([wait_for_poweron] set) with [reset] set, a valid entry address [e] in
    [cpu_on_entry] and [park] clear, under any interleaving with the other
    cores in which no core stores a park request for [c]: the pass never
    enters the power-off path; when it has returned, the core has cleared
    [reset], cleared [wait_for_poweron] (which is still clear) and its last
    action is the call [arm_cpu_reset(e)]; and, running alone with its lock
    free and no suspension requested, the pass does return in that way. *)
Theorem reset_of_parked_core_enters_entry s0 c e sched :
  lock_inv s0 -> pcof s0 c = Ev97 ->
  wait_for_poweron (percpu s0 c) = true ->
  reset (percpu s0 c) = true ->
  cpu_on_entry (percpu s0 c) = e -> e <> PSCI_INVALID_ADDRESS cfg ->
  park (percpu s0 c) = false ->
  Forall (no_start c) sched ->
  (forall new, trace (run cfg sched s0) = new ++ trace s0 ->
     (forall c', ~ In (c', Write c F_park true) new) ->
     let s := run cfg sched s0 in
     power_off (pcof s c) = false /\
     (pcof s c = Idle ->
      reset_entered c e new s /\
      exists earlier, by_core c new = arm_cpu_reset e :: earlier)) /\
  (control_lock (percpu s0 c) = None -> suspend_cpu (percpu s0 c) = false ->
   let s := run cfg (repeat (Exec c) 25) s0 in
   pcof s c = Idle /\
   exists new earlier,
     trace s = new ++ trace s0 /\ reset_entered c e new s /\
     by_core c new = arm_cpu_reset e :: earlier).
Proof.
  intros Hlock Hpc Hwfp Hreset Hentry He Hpark Hsched.
  assert (forall sched', Forall (no_start c) sched' ->
          forall new, trace (run cfg sched' s0) = new ++ trace s0 ->
          (forall c', ~ In (c', Write c F_park true) new) ->
          power_off (pcof (run cfg sched' s0) c) = false /\
          (pcof (run cfg sched' s0) c = Idle ->
           reset_entered c e new (run cfg sched' s0) /\
           exists earlier, by_core c new = arm_cpu_reset e :: earlier)) as Hgen.
  { intros sched' Hs' new Htr Hno.
    assert (events_reset_inv c e (trace s0) (run cfg sched' s0))
      as (new0 & Htr0 & _ & Hreq & H).
    { apply events_reset_inv_run; auto. exists []. rewrite Hpc.
      repeat split; auto. congruence. }
    rewrite Htr in Htr0. apply app_inv_tail in Htr0. subst new0.
    assert (~ park_requested c false new) as Hnp.
    { intros [Hf | [c' Hc']]; [discriminate | now apply (Hno c')]. }
    split.
    - destruct (pcof (run cfg sched' s0) c); try destruct k; try destruct r;
        simpl in *; tauto.
    - intros Hidle. rewrite Hidle in H. tauto. }
  split; [now apply Hgen|].
  intros Hfree Hsus s.
  assert (pcof s c = Idle) as Hidle.
  { apply solo_returns.
    - unfold unhindered. rewrite Hpc. simpl. auto.
    - rewrite Hpc. simpl. lia. }
  split; [exact Hidle|].
  destruct (solo_trace c c 25 s0) as (new & Hnew & Hno).
  { now rewrite Hpc. }
  destruct (Hgen (repeat (Exec c) 25)) with (new := new) as (_ & Hres); auto.
  { apply Forall_forall. intros l Hl. apply repeat_spec in Hl. now subst. }
  destruct (Hres Hidle) as (Hre & earlier & Hby).
  exists new, earlier. auto.
Qed.

(** *** Suspension *)

(** Only the store of [arch_resume_cpu(t)] clears [suspend_cpu] of [t]. *)
Lemma suspend_cpu_cleared c t s :
  suspend_cpu (percpu s t) = true ->
  suspend_cpu (percpu (exec cfg c s) t) = false ->
  pcof s c = Res74 t.
Proof.
  exec_cases c s; intros; congruence.
Qed.



Lemma suspend_cpu_kept l t s :
  not_resume_store t l s ->
  suspend_cpu (percpu s t) = true ->
  suspend_cpu (percpu (step cfg l s) t) = true.
Proof.
  destruct l as [c | c f]; simpl; intros Hn H.
  - destruct (suspend_cpu (percpu (exec cfg c s) t)) eqn:E; auto.
    exfalso. apply Hn. now apply suspend_cpu_cleared.
  - now rewrite percpu_start.
Qed.












(** *** The physical-interrupt router *)

Lemma wrap_stat_small z :
  (0 <= z < 2 ^ stat_bits cfg)%Z -> wrap_stat cfg z = z.
Proof. intros H. unfold wrap_stat. now apply Z.mod_small. Qed.

(** C3.  [arch_handle_phys_irq(cpu_data, irqn, count_event)]: for the
    maintenance interrupt it returns [true], adds [count_event] to the
    maintenance counter (in the arithmetic of the counter type, so exactly
    [count_event] when the sum fits) and changes no other counter; for any
    other [irqn] it returns [false], adds [count_event] to the virtual-IRQ
    counter, changes no other counter, and calls
    [irqchip_set_pending(cpu_data, irqn)] exactly once, whatever
    [count_event] is.  No control flag is touched in either case.  Run by a
    core of the system, the function takes one step, which changes the data
    of that core only and appends exactly these calls to the history. *)
Theorem arch_handle_phys_irq_classifies d irqn count_event :
  let r := arch_handle_phys_irq cfg d irqn count_event in
  let d' := fst (fst r) in
  let calls := snd (fst r) in
  let handled := snd r in
  (irqn = maintenance_irq cfg ->
   handled = true /\
   stats d' JAILHOUSE_CPU_STAT_VMEXITS_MAINTENANCE =
     wrap_stat cfg (stats d JAILHOUSE_CPU_STAT_VMEXITS_MAINTENANCE + count_event) /\
   ((0 <= stats d JAILHOUSE_CPU_STAT_VMEXITS_MAINTENANCE + count_event
       < 2 ^ stat_bits cfg)%Z ->
    stats d' JAILHOUSE_CPU_STAT_VMEXITS_MAINTENANCE =
      (stats d JAILHOUSE_CPU_STAT_VMEXITS_MAINTENANCE + count_event)%Z) /\
   (forall k, k <> JAILHOUSE_CPU_STAT_VMEXITS_MAINTENANCE ->
              stats d' k = stats d k) /\
   calls = [irqchip_inject_pending]) /\
  (irqn <> maintenance_irq cfg ->
   handled = false /\
   stats d' JAILHOUSE_CPU_STAT_VMEXITS_VIRQ =
     wrap_stat cfg (stats d JAILHOUSE_CPU_STAT_VMEXITS_VIRQ + count_event) /\
   ((0 <= stats d JAILHOUSE_CPU_STAT_VMEXITS_VIRQ + count_event
       < 2 ^ stat_bits cfg)%Z ->
    stats d' JAILHOUSE_CPU_STAT_VMEXITS_VIRQ =
      (stats d JAILHOUSE_CPU_STAT_VMEXITS_VIRQ + count_event)%Z) /\
   (forall k, k <> JAILHOUSE_CPU_STAT_VMEXITS_VIRQ ->
              stats d' k = stats d k) /\
   calls = [irqchip_set_pending irqn]) /\
  control_lock d' = control_lock d /\
  cpu_on_entry d' = cpu_on_entry d /\
  (forall f, get_field f d' = get_field f d) /\
  (forall s c,
     pcof s c = Irq174 irqn count_event -> percpu s c = d ->
     let s' := exec cfg c s in
     percpu s' c = d' /\
     (forall c', c' <> c -> percpu s' c' = percpu s c') /\
     trace s' = rev (map (fun e => (c, e)) calls) ++ trace s /\
     pcof s' c = Idle).
Proof.
  intros r d' calls handled. subst r d' calls handled.
  split; [|split; [|split; [|split; [|split]]]].
  - intros E. unfold arch_handle_phys_irq.
    destruct (Z.eqb_spec irqn (maintenance_irq cfg)); [|contradiction]. simpl.
    repeat split.
    + intros Hr. now apply wrap_stat_small.
    + intros k Hk. destruct k; simpl; congruence.
  - intros E. unfold arch_handle_phys_irq.
    destruct (Z.eqb_spec irqn (maintenance_irq cfg)); [contradiction|]. simpl.
    repeat split.
    + intros Hr. now apply wrap_stat_small.
    + intros k Hk. destruct k; simpl; congruence.
  - unfold arch_handle_phys_irq.
    now destruct (irqn =? maintenance_irq cfg)%Z.
  - unfold arch_handle_phys_irq.
    now destruct (irqn =? maintenance_irq cfg)%Z.
  - intros f. unfold arch_handle_phys_irq.
    destruct (irqn =? maintenance_irq cfg)%Z; now destruct f.
  - intros s c Hpc Hd s'. subst s' d. unfold exec. rewrite Hpc.
    destruct (arch_handle_phys_irq cfg (percpu s c) irqn count_event)
      as [[d1 es] b].
    unfold_ops. simpl. rewrite !upd_same. repeat split.
    intros c' Hne. now apply upd_other.
Qed.

(** *** The SGI dispatcher *)

(** C9.  [arch_handle_sgi] with an [irqn] that is neither [SGI_INJECT] nor
    [SGI_EVENT]: the only effect is the warning.  The data of every core
    (flags, lock, entry address, counters) is unchanged, the core is back in
    its guest ([check_events] is not entered), no other core moves, and the
    history gains the [printk] and nothing else (in particular no
    [irqchip_inject_pending]). *)
Theorem arch_handle_sgi_unknown_only_warns s c irqn count_event :
  pcof s c = Sgi152 irqn count_event ->
  irqn <> SGI_INJECT cfg -> irqn <> SGI_EVENT cfg ->
  let s' := exec cfg c s in
  arch_handle_sgi cfg (percpu s c) irqn count_event =
    (percpu s c, [printk_unknown_sgi irqn], false) /\
  trace s' = (c, printk_unknown_sgi irqn) :: trace s /\
  (forall c', percpu s' c' = percpu s c') /\
  pcof s' c = Idle /\
  (forall c', c' <> c -> pcof s' c' = pcof s c').
Proof.
  intros Hpc Hi He s'. subst s'.
  assert (arch_handle_sgi cfg (percpu s c) irqn count_event =
          (percpu s c, [printk_unknown_sgi irqn], false)) as Hh.
  { unfold arch_handle_sgi.
    destruct (Z.eqb_spec irqn (SGI_INJECT cfg)); [contradiction|].
    destruct (Z.eqb_spec irqn (SGI_EVENT cfg)); [contradiction|]. reflexivity. }
  split; [exact Hh|].
  unfold_exec. rewrite Hpc, Hh. unfold_ops. simpl. repeat split.
  - intros c'. unfold upd. destruct (Nat.eqb_spec c' c); congruence.
  - apply upd_same.
  - intros c' Hne. now apply upd_other.
Qed.

(** *** Which stores are made under the lock *)

(** C6, as amended.  In any state that respects lock ownership, a step of
    core [c] changes [suspend_cpu] or [cpu_suspended] of core [t], or clears
    [park], [reset] or [flush_vcpu_caches] of [t], only while [c] holds the
    [control_lock] of [t]; [cpu_on_entry] is never written; the counters of
    [t] are changed by [t] only.  The stores that set [reset], [park] and
    [flush_vcpu_caches] ([arch_reset_cpu], [arch_park_cpu],
    [arch_flush_cell_vcpu_caches]) are made at once, whatever the state of
    the lock, and leave the lock as it is. *)
Theorem control_lock_discipline s c t :
  lock_inv s ->
  let d := percpu s t in
  let d' := percpu (exec cfg c s) t in
  (suspend_cpu d' <> suspend_cpu d -> control_lock d = Some c) /\
  (cpu_suspended d' <> cpu_suspended d -> control_lock d = Some c) /\
  (park d = true -> park d' = false -> control_lock d = Some c) /\
  (reset d = true -> reset d' = false -> control_lock d = Some c) /\
  (flush_vcpu_caches d = true -> flush_vcpu_caches d' = false ->
   control_lock d = Some c) /\
  cpu_on_entry d' = cpu_on_entry d /\
  (forall k, stats d' k <> stats d k -> c = t) /\
  (pcof s c = Reset81 t ->
   reset d' = true /\ control_lock d' = control_lock d) /\
  (pcof s c = ParkReq88 t ->
   park d' = true /\ control_lock d' = control_lock d) /\
  (forall rest, pcof s c = Flush198 (t :: rest) -> t <> c ->
   flush_vcpu_caches d' = true /\ control_lock d' = control_lock d).
Proof.
  intros Hinv d d'. subst d d'. pose proof (Hinv c) as Hc.
  repeat match goal with |- _ /\ _ => split end.
  1-5: exec_cases c s; intros; try congruence;
       try (specialize (Hc _ eq_refl)); simpl in *; congruence.
  - apply cpu_on_entry_exec.
  - intros k. exec_cases c s; intros; try congruence; auto.
  - intros Hpc. unfold_exec. rewrite Hpc. unfold_ops. simpl.
    rewrite upd_same. auto.
  - intros Hpc. unfold_exec. rewrite Hpc. unfold_ops. simpl.
    rewrite upd_same. auto.
  - intros rest Hpc Hne. unfold_exec. rewrite Hpc. unfold_ops.
    destruct (Nat.eqb_spec t c); [contradiction|]. simpl.
    rewrite upd_same. auto.
Qed.

(** *** Suspending a core that is already suspended *)
Lemma suspend_again_inv_step a t tr0 l s :
  lock_inv s -> no_start a l ->
  suspend_again_inv a t tr0 s -> suspend_again_inv a t tr0 (step cfg l s).
Proof.
  intros Hlock Hl (new & Htr & Hby & H).
  destruct (Nat.eq_dec (actor l) a) as [Heq | Hne].
  - destruct l as [c0 | c0 f]; simpl in Heq, Hl; [subst c0 | congruence].
    simpl. unfold suspend_again_inv.
    destruct (pcof s a) eqn:Hpc; try contradiction.
    + unfold_exec. rewrite Hpc. exists new. now rewrite Hpc.
    + destruct H as [-> H]. unfold_exec. rewrite Hpc. unfold_ops. simpl.
      rewrite upd_same. exists new. unfold get_field. rewrite H. auto.
    + destruct H as [-> ->]. unfold_exec. rewrite Hpc. unfold_ops. simpl.
      rewrite upd_same. exists new. auto.
  - destruct (step_other_view l a tr0 new s Hne Htr)
      as (Hpc & new' & Htr' & Hby' & _).
    exists new'. split; [exact Htr'|]. split; [congruence|]. rewrite Hpc.
    destruct (pcof s a) eqn:Hpa; try contradiction; auto.
    destruct H as [-> H]. split; auto.
    assert (control_lock (percpu s t) = Some a) as Hheld.
    { apply Hlock. now rewrite Hpa. }
    destruct (step_locked l a t s Hlock Hheld Hne) as (_ & _ & Hcs).
    simpl in Hcs. congruence.
Qed.

(** C7.  [arch_suspend_cpu(t)] on core [a].
    (1) If line 55 reads [cpu_suspended] set, then under any interleaving
    with the other cores [a] makes no store and no call from there on, in
    particular sends no SGI, and it is at line 55, at the unlock of line 57,
    or has returned; its next two own steps bring it back ([Idle]).
    (2) If line 55 reads [cpu_suspended] clear, the next three own steps
    send exactly the SGI [SGI_EVENT] to [1 << t] and reach the wait loop.
    (3) A whole call on a target that is already suspended, with its lock
    free, leaves the data of every core and the program point of every
    core as they were; the history gains the (redundant) store of
    [suspend_cpu] only, so the number of SGIs sent is unchanged. *)
Theorem suspend_of_suspended_sends_nothing s0 a t :
  pcof s0 a = Susp55 t ->
  (cpu_suspended (percpu s0 t) = true ->
   (forall sched, lock_inv s0 -> Forall (no_start a) sched ->
      let s := run cfg sched s0 in
      (exists new, trace s = new ++ trace s0 /\ by_core a new = []) /\
      (pcof s a = Susp55 t \/ pcof s a = Susp57 t true \/ pcof s a = Idle)) /\
   pcof (run cfg [Exec a; Exec a] s0) a = Idle) /\
  (cpu_suspended (percpu s0 t) = false ->
   let s := run cfg [Exec a; Exec a; Exec a] s0 in
   pcof s a = Susp62 t /\
   trace s = (a, irqchip_send_sgi (Z.shiftl 1 (Z.of_nat t)) (SGI_EVENT cfg))
               :: trace s0) /\
  (forall s1,
     pcof s1 a = Idle -> control_lock (percpu s1 t) = None ->
     suspend_cpu (percpu s1 t) = true -> cpu_suspended (percpu s1 t) = true ->
     let s := run cfg (Start a (Call_arch_suspend_cpu t) :: repeat (Exec a) 4) s1 in
     (forall c, percpu s c = percpu s1 c) /\
     (forall c, pcof s c = pcof s1 c) /\
     trace s = (a, Write t F_suspend_cpu true) :: trace s1 /\
     signals (trace s) = signals (trace s1)).
Proof.
  intros Hpc. split; [|split].
  - intros Hcs. split.
    + intros sched Hlock Hns s.
      assert (suspend_again_inv a t (trace s0) s) as (new & Htr & Hby & H).
      { apply (run_invariant
                 (fun s => lock_inv s /\ suspend_again_inv a t (trace s0) s)
                 (no_start a)); auto.
        - intros l s1 Hok [H1 H2]. split.
          + now apply lock_inv_step.
          + now apply suspend_again_inv_step.
        - split; auto. exists []. rewrite Hpc. auto. }
      split; [now exists new|].
      destruct (pcof s a); try contradiction; auto.
      * destruct H as [-> _]. auto.
      * destruct H as [-> ->]. auto.
    + solo_step. rewrite Hpc. cbn -[run upd]. rewrite Hcs. solo_step.
      cbn [run pcof]. now rewrite upd_same.
  - intros Hcs s. subst s.
    solo_step. rewrite Hpc. cbn -[run upd]. rewrite Hcs. do 2 solo_step.
    cbn [run pcof trace]. rewrite upd_same. auto.
  - intros s1 Hidle Hfree Hsus Hcs s. subst s. cbn [repeat].
    rewrite run_cons. unfold step, start. rewrite Hidle.
    unfold goto, entry. solo_step. rewrite Hfree. cbn -[run upd].
    rewrite ?upd_same. solo_step. solo_step.
    rewrite Hcs. solo_step.
    cbn [run pcof percpu trace]. repeat split.
    + intros c. unfold upd. destruct (Nat.eqb_spec c t); auto. subst c.
      destruct (percpu s1 t). simpl in *. subst. reflexivity.
    + intros c. unfold upd. destruct (Nat.eqb_spec c a); auto. congruence.
Qed.

(** *** Cache flush requests *)

Lemma set_field_idem f v d : set_field f v (set_field f v d) = set_field f v d.
Proof. now destruct f. Qed.

Lemma flush_loop c : forall rest s,
  pcof s c = Flush198 rest ->
  let s' := run cfg (repeat (Exec c) (S (length rest))) s in
  pcof s' c = Idle /\
  (forall t, percpu s' t =
             if flush_requested c rest t
             then set_field F_flush_vcpu_caches true (percpu s t)
             else percpu s t) /\
  signals (trace s') = signals (trace s).
Proof.
  induction rest as [|cpu rest IH]; intros s Hpc s'; subst s'.
  - cbn [length repeat]. solo_step. rewrite Hpc. cbn [run pcof percpu trace].
    rewrite upd_same. auto.
  - change (repeat (Exec c) (S (length (cpu :: rest))))
      with (Exec c :: repeat (Exec c) (S (length rest))).
    rewrite run_cons. unfold step.
    assert (pcof (exec cfg c s) c = Flush198 rest) as Hpc'.
    { unfold_exec. rewrite Hpc. unfold goto. simpl. apply upd_same. }
    destruct (IH _ Hpc') as (Hidle & Hdata & Hsig).
    split; [exact Hidle|]. split.
    + intros t. rewrite Hdata.
      assert (percpu (exec cfg c s) t =
              if Nat.eqb t cpu && negb (Nat.eqb cpu c)
              then set_field F_flush_vcpu_caches true (percpu s t)
              else percpu s t) as ->.
      { unfold_exec. rewrite Hpc. unfold_ops. unfold upd.
        destruct (Nat.eqb cpu c) eqn:E1; simpl;
          destruct (Nat.eqb t cpu) eqn:E2; simpl; try reflexivity.
        apply Nat.eqb_eq in E2. now subst. }
      unfold flush_requested. cbn [existsb].
      destruct (Nat.eqb_spec t cpu), (Nat.eqb_spec cpu c), (Nat.eqb_spec t c),
        (existsb (Nat.eqb t) rest); subst; simpl; try congruence;
        auto using set_field_idem.
    + rewrite Hsig. unfold_exec. rewrite Hpc. unfold_ops.
      destruct (Nat.eqb cpu c); reflexivity.
Qed.

(** Only the owner, at line 133 of [check_events], clears
    [flush_vcpu_caches]. *)
Lemma flush_cleared c t s :
  flush_vcpu_caches (percpu s t) = true ->
  flush_vcpu_caches (percpu (exec cfg c s) t) = false ->
  c = t /\ exists r, pcof s t = Ev133 r.
Proof.
  exec_cases c s; intros; try congruence; eauto.
Qed.

(** C8.  [arch_flush_cell_vcpu_caches] on core [c].
    (1) One iteration of [for_each_cpu], in any state and so under any
    interleaving, never waits: it moves on to the next core of the set, and
    it changes no lock, entry address, counter or flag other than
    [flush_vcpu_caches] of any core; for the calling core itself it calls
    [arm_paging_vcpu_flush_tlbs] and changes no data at all (its own flag is
    not set); for another core it stores that core's flag and changes the
    data of no other core; after the last core the function returns.
    (2) The whole call, run alone over the cores of the cell, returns with
    the flag set on exactly the cores of the set other than [c], everything
    else as before, and no SGI sent.
    (3) A step of the system clears [flush_vcpu_caches] of a core [t] only
    if it is [t]'s own line 133 in [check_events]. *)
Theorem flush_cell_vcpu_caches_only_requests c :
  (forall s cpu rest,
     pcof s c = Flush198 (cpu :: rest) ->
     let s' := exec cfg c s in
     pcof s' c = Flush198 rest /\
     (forall t,
        control_lock (percpu s' t) = control_lock (percpu s t) /\
        cpu_on_entry (percpu s' t) = cpu_on_entry (percpu s t) /\
        stats (percpu s' t) = stats (percpu s t) /\
        forall f, f <> F_flush_vcpu_caches ->
                  get_field f (percpu s' t) = get_field f (percpu s t)) /\
     (cpu = c ->
      trace s' = (c, arm_paging_vcpu_flush_tlbs) :: trace s /\
      forall t, percpu s' t = percpu s t) /\
     (cpu <> c ->
      trace s' = (c, Write cpu F_flush_vcpu_caches true) :: trace s /\
      flush_vcpu_caches (percpu s' cpu) = true /\
      forall t, t <> cpu -> percpu s' t = percpu s t)) /\
  (forall s,
     pcof s c = Flush198 [] ->
     let s' := exec cfg c s in
     pcof s' c = Idle /\ trace s' = trace s /\
     forall t, percpu s' t = percpu s t) /\
  (forall s cl,
     pcof s c = Idle ->
     let s' := run cfg (Start c (Call_arch_flush_cell_vcpu_caches cl)
                          :: repeat (Exec c) (S (length (cpu_set cl)))) s in
     pcof s' c = Idle /\
     (forall t, percpu s' t =
                if flush_requested c (cpu_set cl) t
                then set_field F_flush_vcpu_caches true (percpu s t)
                else percpu s t) /\
     signals (trace s') = signals (trace s)) /\
  (forall l s t,
     flush_vcpu_caches (percpu s t) = true ->
     flush_vcpu_caches (percpu (step cfg l s) t) = false ->
     l = Exec t /\ exists r, pcof s t = Ev133 r).
Proof.
  split; [|split; [|split]].
  - intros s cpu rest Hpc s'. subst s'. unfold_exec. rewrite Hpc. unfold_ops.
    destruct (Nat.eqb_spec cpu c) as [-> | Hne]; cbn [pcof percpu trace].
    + rewrite upd_same. split; [reflexivity|]. split; [|split].
      * intros t. repeat split.
      * intros _. split; reflexivity.
      * intros Hx. contradiction.
    + rewrite upd_same. split; [reflexivity|]. split; [|split].
      * intros t. unfold upd. destruct (Nat.eqb_spec t cpu) as [-> | Hne'].
        -- repeat split. intros f Hf. now destruct f.
        -- repeat split.
      * intros Hx; contradiction.
      * intros _. split; [reflexivity|]. split.
        -- rewrite upd_same. reflexivity.
        -- intros t Ht. now apply upd_other.
  - intros s Hpc s'. subst s'. unfold_exec. rewrite Hpc. unfold_ops.
    cbn [pcof percpu trace]. rewrite upd_same. auto.
  - intros s cl Hidle s'. subst s'. rewrite run_cons. unfold step, start.
    rewrite Hidle.
    pose proof (flush_loop c (cpu_set cl)
                  (goto c (entry (Call_arch_flush_cell_vcpu_caches cl)) s)) as H.
    cbn [entry] in *. apply H. unfold goto. simpl. apply upd_same.
  - intros l s t H1 H0. destruct l as [c0 | c0 f]; simpl in H0.
    + destruct (flush_cleared c0 t s H1 H0) as (-> & r & Hr). eauto.
    + rewrite percpu_start in H0. congruence.
Qed.

End Control.

(** * The properties on concrete runs *)

Lemma lock_inv_all_idle s : (forall c, pcof s c = Idle) -> lock_inv s.
Proof. intros H c t. rewrite H. discriminate. Qed.

Lemma lock_inv_event_received d : lock_inv (event_received d).
Proof.
  apply lock_inv_run. apply lock_inv_all_idle. reflexivity.
Qed.

Ltac no_starts := repeat constructor; simpl; auto; discriminate.

(** C1 on a run in which a further reset request arrives during the pass:
    core 0 ends parked. *)
Lemma park_has_priority_over_reset_witness :
  let s0 := event_received (requests false true true 32768 false false) in
  let s := run armv7 with_reset_request s0 in
  reset_check (pcof s 0) = false /\
  reset_entry (pcof s 0) = false /\
  reset (percpu s 0) = true /\
  (pcof s 0 = Idle ->
   exists new, trace s = new ++ trace s0 /\ parked 0 new s) /\
  (control_lock (percpu s0 0) = None -> suspend_cpu (percpu s0 0) = false ->
   pcof (run armv7 (repeat (Exec 0) 25) s0) 0 = Idle).
Proof.
  apply (park_has_priority_over_reset armv7
           (event_received (requests false true true 32768 false false)) 0
           with_reset_request).
  - apply lock_inv_event_received.
  - reflexivity.
  - reflexivity.
  - reflexivity.
  - unfold with_reset_request. no_starts.
Defined.



(** C3 on the maintenance interrupt (25) and on another one (40). *)
Lemma arch_handle_phys_irq_classifies_witness :
  (let r := arch_handle_phys_irq armv7 cpu_data0 25 3 in
   snd r = true /\
   stats (fst (fst r)) JAILHOUSE_CPU_STAT_VMEXITS_MAINTENANCE = 3%Z) /\
  (let r := arch_handle_phys_irq armv7 cpu_data0 40 3 in
   snd r = false /\
   stats (fst (fst r)) JAILHOUSE_CPU_STAT_VMEXITS_VIRQ = 3%Z /\
   snd (fst r) = [irqchip_set_pending 40]).
Proof.
  split.
  - destruct (arch_handle_phys_irq_classifies armv7 cpu_data0 25 3)
      as (H & _ & _).
    destruct (H eq_refl) as (Hh & _ & Hs & _). split; [exact Hh|].
    apply Hs. simpl. lia.
  - destruct (arch_handle_phys_irq_classifies armv7 cpu_data0 40 3)
      as (_ & H & _).
    destruct H as (Hh & _ & Hs & _ & Hc); [discriminate|].
    split; [exact Hh|]. split; [|exact Hc].
    apply Hs. simpl. lia.
Defined.

(** C4: with [park] also set, the pass returns with [reset] still set;
    core 0 never stored [reset = false]. *)
Lemma reset_stays_set_when_park_is_pending :
  let s0 := event_received (requests false true true 4294967295 false false) in
  let s := run armv7 (repeat (Exec 0) 25) s0 in
  pcof s0 0 = Ev97 /\
  reset (percpu s0 0) = true /\
  cpu_on_entry (percpu s0 0) = PSCI_INVALID_ADDRESS armv7 /\
  pcof s 0 = Idle /\
  wait_for_poweron (percpu s 0) = true /\
  reset (percpu s 0) = true /\
  ~ In (0, Write 0 F_reset false) (trace s).
Proof.
  vm_compute. repeat split; try reflexivity. intuition discriminate.
Qed.

(** C4 as amended, on a run without park request: core 0 clears [reset]
    and powers off. *)
Lemma reset_without_entry_powers_off_witness :
  let s0 := event_received (requests false false true 4294967295 false false) in
  let s := run armv7 with_reset_request s0 in
  reset_entry (pcof s 0) = false /\
  (pcof s 0 = Idle ->
   exists new, trace s = new ++ trace s0 /\ parked 0 new s /\
     (In (0, Write 0 F_reset false) new \/
      park_requested 0 (park (percpu s0 0)) new)) /\
  (control_lock (percpu s0 0) = None -> suspend_cpu (percpu s0 0) = false ->
   pcof (run armv7 (repeat (Exec 0) 25) s0) 0 = Idle).
Proof.
  apply (reset_without_entry_powers_off armv7
           (event_received (requests false false true 4294967295 false false))
           0 with_reset_request).
  - apply lock_inv_event_received.
  - reflexivity.
  - reflexivity.
  - reflexivity.
  - unfold with_reset_request. apply Forall_app. split; [no_starts|].
    apply Forall_forall. intros l Hl. apply repeat_spec in Hl. now subst.
Defined.

(** C5: a parked core with a valid entry address, [reset] set and [park]
    set as well: the pass returns with [reset] and [wait_for_poweron] still
    set, and core 0 never called [arm_cpu_reset] with the entry address. *)
Lemma parked_core_stays_parked_when_park_is_pending :
  let s0 := event_received (requests false true true 32768 true false) in
  let s := run armv7 (repeat (Exec 0) 25) s0 in
  pcof s0 0 = Ev97 /\
  wait_for_poweron (percpu s0 0) = true /\
  reset (percpu s0 0) = true /\
  cpu_on_entry (percpu s0 0) = 32768%Z /\
  32768%Z <> PSCI_INVALID_ADDRESS armv7 /\
  pcof s 0 = Idle /\
  reset (percpu s 0) = true /\
  wait_for_poweron (percpu s 0) = true /\
  ~ In (0, arm_cpu_reset 32768) (trace s).
Proof.
  vm_compute. repeat split; try reflexivity; try discriminate.
  intuition discriminate.
Qed.

(** C5 as amended, on the solo run of a parked core with a reset request
    and a valid entry address. *)
Lemma reset_of_parked_core_enters_entry_witness :
  let s0 := event_received (requests false false true 32768 true false) in
  let s := run armv7 (repeat (Exec 0) 25) s0 in
  pcof s 0 = Idle /\
  exists new earlier,
    trace s = new ++ trace s0 /\ reset_entered 0 32768 new s /\
    by_core 0 new = arm_cpu_reset 32768 :: earlier.
Proof.
  apply (reset_of_parked_core_enters_entry armv7
           (event_received (requests false false true 32768 true false))
           0 32768 []).
  - apply lock_inv_event_received.
  - reflexivity.
  - reflexivity.
  - reflexivity.
  - reflexivity.
  - discriminate.
  - reflexivity.
  - constructor.
  - reflexivity.
  - reflexivity.
Defined.

(** C6: core 1 stores [reset] of core 0 while core 2 holds the
    [control_lock] of core 0. *)
Lemma reset_request_is_stored_without_the_lock :
  let s := reset_request_under_foreign_lock in
  pcof s 1 = Reset81 0 /\
  control_lock (percpu s 0) = Some 2 /\
  reset (percpu s 0) = false /\
  reset (percpu (exec armv7 1 s) 0) = true /\
  control_lock (percpu (exec armv7 1 s) 0) = Some 2.
Proof. vm_compute. repeat split. Qed.

(** C6 as amended, on the store of [suspend_cpu] by core 2, which holds
    the lock of core 0, and on the reset request of core 1. *)
Lemma control_lock_discipline_witness :
  let s := reset_request_under_foreign_lock in
  (suspend_cpu (percpu (exec armv7 2 s) 0) <> suspend_cpu (percpu s 0) ->
   control_lock (percpu s 0) = Some 2) /\
  reset (percpu (exec armv7 1 s) 0) = true /\
  control_lock (percpu (exec armv7 1 s) 0) = control_lock (percpu s 0).
Proof.
  assert (lock_inv reset_request_under_foreign_lock) as Hinv.
  { apply lock_inv_run. apply lock_inv_all_idle. reflexivity. }
  split.
  - apply (control_lock_discipline armv7 reset_request_under_foreign_lock 2 0
             Hinv).
  - apply (control_lock_discipline armv7 reset_request_under_foreign_lock 1 0
             Hinv). reflexivity.
Defined.

(** C7 on the second of two suspend calls for core 1: core 2 finds it
    suspended; core 1 keeps spinning in between. *)
Lemma suspend_of_suspended_sends_nothing_witness :
  (let s := run armv7 [Exec 2; Exec 1; Exec 1; Exec 2] second_suspend in
   (exists new, trace s = new ++ trace second_suspend /\ by_core 2 new = []) /\
   (pcof s 2 = Susp55 1 \/ pcof s 2 = Susp57 1 true \/ pcof s 2 = Idle)) /\
  pcof (run armv7 [Exec 2; Exec 2] second_suspend) 2 = Idle.
Proof.
  destruct (suspend_of_suspended_sends_nothing armv7 second_suspend 2 1)
    as (H & _ & _); [reflexivity|].
  destruct (H eq_refl) as (Hany & Hsolo). split; [|exact Hsolo].
  apply Hany.
  - apply lock_inv_run. apply lock_inv_start. apply lock_inv_all_idle.
    reflexivity.
  - no_starts.
Defined.

(** C8 on the cell of cores 0, 1 and 2, called on core 0. *)
Lemma flush_cell_vcpu_caches_only_requests_witness :
  let cl := {| cpu_set := [0; 1; 2] |} in
  let s' := run armv7 (Start 0 (Call_arch_flush_cell_vcpu_caches cl)
                         :: repeat (Exec 0) 4) boot in
  pcof s' 0 = Idle /\
  (forall t, percpu s' t =
             if flush_requested 0 [0; 1; 2] t
             then set_field F_flush_vcpu_caches true (percpu boot t)
             else percpu boot t) /\
  signals (trace s') = signals (trace boot).
Proof.
  apply (flush_cell_vcpu_caches_only_requests armv7 0).
  reflexivity.
Defined.

(** C9 on SGI 5 received by core 0. *)
Lemma arch_handle_sgi_unknown_only_warns_witness :
  let s := start 0 (Call_arch_handle_sgi 5 3) boot in
  let s' := exec armv7 0 s in
  arch_handle_sgi armv7 (percpu s 0) 5 3 =
    (percpu s 0, [printk_unknown_sgi 5], false) /\
  trace s' = (0, printk_unknown_sgi 5) :: trace s /\
  (forall c', percpu s' c' = percpu s c') /\
  pcof s' 0 = Idle /\
  (forall c', c' <> 0 -> pcof s' c' = pcof s c').
Proof.
  apply (arch_handle_sgi_unknown_only_warns armv7
           (start 0 (Call_arch_handle_sgi 5 3) boot) 0 5 3).
  - reflexivity.
  - discriminate.
  - discriminate.
Defined.

(** C10 on a run in which core 1 files a park request for core 0 while
    core 0 is in [arm_cpu_park]. *)
Lemma arm_cpu_park_resets_to_entry_0_witness :
  let s0 := start 0 Call_arm_cpu_park boot in
  let s := run armv7 park_call s0 in
  ((pcof s 0 = Off22 K_arm_cpu_park \/ pcof s 0 = Off23 K_arm_cpu_park) ->
   control_lock (percpu s 0) = Some 0) /\
  (pcof s 0 = Idle ->
   exists new, trace s = new ++ trace s0 /\
     by_core 0 new = [arm_paging_vcpu_init_parking_mm; arm_cpu_reset 0;
                      Write 0 F_wait_for_poweron true; Write 0 F_park false] /\
     wait_for_poweron (percpu s 0) = true) /\
  (control_lock (percpu s0 0) = None ->
   pcof (run armv7 (repeat (Exec 0) 6) s0) 0 = Idle).
Proof.
  apply (arm_cpu_park_resets_to_entry_0 armv7
           (start 0 Call_arm_cpu_park boot) 0 park_call).
  - apply lock_inv_start. apply lock_inv_all_idle. reflexivity.
  - reflexivity.
  - unfold park_call. no_starts.
Defined.

(** * Further properties of the code

    The same proof steps as above, for the statements that follow. *)

Ltac unfold_ops :=
  unfold spin_lock, spin_unlock, goto, store, emit, emit_all, with_cpu_data,
    load, arm_cpu_kick in *.

Ltac unfold_exec :=
  unfold exec, enter_cpu_off, arm_cpu_park, arch_suspend_cpu, arch_resume_cpu,
    arch_reset_cpu, arch_park_cpu, check_events, arch_cell_reset,
    arch_flush_cell_vcpu_caches, arch_config_commit;
  cbv beta iota.

Ltac handler_facts :=
  repeat match goal with
  | H : arch_handle_sgi _ _ _ _ = _ |- _ =>
      let H1 := fresh "Hlk" in let H2 := fresh "Hen" in let H3 := fresh "Hfl" in
      destruct (arch_handle_sgi_frame _ _ _ _ _ _ _ H) as (H1 & H2 & H3);
      pose proof (H3 F_suspend_cpu); pose proof (H3 F_cpu_suspended);
      pose proof (H3 F_park); pose proof (H3 F_reset);
      pose proof (H3 F_wait_for_poweron); pose proof (H3 F_flush_vcpu_caches);
      clear H H3
  | H : arch_handle_phys_irq _ _ _ _ = _ |- _ =>
      let H1 := fresh "Hlk" in let H2 := fresh "Hen" in let H3 := fresh "Hfl" in
      destruct (arch_handle_phys_irq_frame _ _ _ _ _ _ _ H) as (H1 & H2 & H3);
      pose proof (H3 F_suspend_cpu); pose proof (H3 F_cpu_suspended);
      pose proof (H3 F_park); pose proof (H3 F_reset);
      pose proof (H3 F_wait_for_poweron); pose proof (H3 F_flush_vcpu_caches);
      clear H H3
  end.

Ltac break_match :=
  match goal with
  | |- context [match ?x with _ => _ end] => destruct x eqn:?
  end.

Ltac eqb_cases :=
  repeat match goal with
  | H : context [Nat.eqb ?a ?b] |- _ => destruct (Nat.eqb_spec a b); subst
  | |- context [Nat.eqb ?a ?b] => destruct (Nat.eqb_spec a b); subst
  end.

Ltac exec_cases c s :=
  unfold_exec; destruct (pcof s c) eqn:?; unfold_ops; simpl in *;
  repeat break_match; handler_facts; simpl; unfold upd; simpl;
  repeat (eqb_cases; simpl in *; try congruence).

Ltac ex_new :=
  match goal with
  | Htr : trace ?s = ?new ++ ?tr0
    |- exists n, ?x :: trace ?s = n ++ ?tr0 /\ _ =>
      exists (x :: new); split; [rewrite Htr; reflexivity|]
  | Htr : trace ?s = ?new ++ ?tr0
    |- exists n, trace ?s = n ++ ?tr0 /\ _ =>
      exists new; split; [exact Htr|]
  end.

Ltac split_tests :=
  repeat match goal with
  | |- context [match control_lock ?d with _ => _ end] =>
      destruct (control_lock d) eqn:?
  | |- context [if get_field ?f ?d then _ else _] =>
      destruct (get_field f d) eqn:?
  | |- context [if (?a =? ?b)%Z then _ else _] =>
      destruct (Z.eqb_spec a b)
  | |- context [if Nat.eqb ?a ?b then _ else _] =>
      destruct (Nat.eqb_spec a b)
  | |- context [if ?b then _ else _] => destruct b eqn:?
  end.

Ltac own_step Hpc :=
  unfold_exec; rewrite Hpc; unfold_ops; split_tests;
  simpl in *; rewrite ?upd_same; simpl; rewrite ?Hpc; try ex_new;
  rewrite ?by_core_cons_same.

Ltac solo_step :=
  rewrite run_cons; unfold step; unfold_exec; unfold_ops;
  cbn -[run upd]; rewrite ?upd_same; cbn -[run upd].

Section Further.

Variable cfg : platform.

(** ** Lock ownership *)
Lemma lock_exact_start c f s : lock_exact s -> lock_exact (start c f s).
Proof.
  intros Hex c' t. rewrite percpu_start. intros Hl.
  specialize (Hex c' t Hl). unfold start.
  destruct (pcof s c) eqn:Hpc; auto.
  simpl. unfold upd. destruct (Nat.eqb_spec c' c); subst; auto.
  rewrite Hpc in Hex. discriminate.
Qed.

Lemma lock_exact_exec c s : lock_exact s -> lock_exact (exec cfg c s).
Proof.
  intros Hex c' t.
  pose proof (Hex c t) as Hc. pose proof (Hex c' t) as Hc'.
  pose proof (Hex c c) as Hcc. pose proof (Hex c' c) as Hc'c.
  unfold_exec. destruct (pcof s c) eqn:Hpc; unfold_ops; simpl in *;
    repeat break_match; handler_facts; simpl; unfold upd; simpl;
    repeat (eqb_cases; simpl in *; try congruence);
    intros Hh; auto;
    try match goal with
        | Hx : control_lock ?p = control_lock _ |- _ => rewrite Hx in Hh
        end;
    try (specialize (Hc Hh)); try (specialize (Hcc Hh));
    try (specialize (Hc' Hh)); try (specialize (Hc'c Hh));
    simpl in *; try congruence; auto.
Qed.

Lemma lock_exact_run sched : forall s,
  lock_exact s -> lock_exact (run cfg sched s).
Proof.
  induction sched as [|l sched IH]; intros s H; auto.
  simpl. apply IH. destruct l; [apply lock_exact_exec | apply lock_exact_start];
    auto.
Qed.

(** X1.  From a state in which every core is in its guest and no lock is
    taken, whatever the cores then do: the [control_lock] of [t] is held by
    [c] exactly when [c] is between a [spin_lock] and the matching
    [spin_unlock] on it; two cores are never inside critical sections of the
    same lock; and a core that has returned to its guest holds no lock (every
    path of every function, the [break] paths of [check_events] included,
    releases what it took). *)
Theorem control_lock_held_exactly_in_critical_sections s0 sched :
  quiescent s0 ->
  let s := run cfg sched s0 in
  (forall c t, control_lock (percpu s t) = Some c <->
               holds_lock c (pcof s c) = Some t) /\
  (forall c1 c2 t,
     holds_lock c1 (pcof s c1) = Some t ->
     holds_lock c2 (pcof s c2) = Some t -> c1 = c2) /\
  (forall c t, pcof s c = Idle -> control_lock (percpu s t) <> Some c).
Proof.
  intros [Hidle Hfree] s.
  assert (lock_inv s) as Hinv.
  { apply lock_inv_run. intros c t. rewrite Hidle. discriminate. }
  assert (lock_exact s) as Hex.
  { apply lock_exact_run. intros c t. rewrite Hfree. discriminate. }
  split; [|split].
  - intros c t. split; [apply Hex | apply Hinv].
  - intros c1 c2 t H1 H2. apply Hinv in H1. apply Hinv in H2. congruence.
  - intros c t Hc Hl. apply Hex in Hl. rewrite Hc in Hl. discriminate.
Qed.

(** ** Where [cpu_suspended] is set *)
Lemma acknowledged_inside_start c f s :
  acknowledged_inside s -> acknowledged_inside (start c f s).
Proof.
  intros H t. rewrite percpu_start. intros Hcs. specialize (H t Hcs).
  unfold start. destruct (pcof s c) eqn:Hpc; auto.
  simpl. unfold upd. destruct (Nat.eqb_spec t c); subst; auto.
  rewrite Hpc in H. destruct H. discriminate.
Qed.

Lemma acknowledged_inside_exec c s :
  lock_inv s -> acknowledged_inside s -> acknowledged_inside (exec cfg c s).
Proof.
  intros Hlock H t.
  destruct (Nat.eq_dec c t) as [-> | Hne].
  - specialize (H t). revert H.
    exec_cases t s; intros Hin0 Hcs;
      try (destruct (Hin0 ltac:(congruence)) as [Hin H130]; try discriminate;
           try specialize (H130 eq_refl));
      try (split; [reflexivity | intros E; try discriminate E]);
      try congruence;
      match goal with
      | Hp : pcof ?s ?t = _ |- context [pcof ?s ?t] =>
          rewrite Hp; split; [reflexivity | discriminate]
      end.
  - rewrite pcof_exec_other by congruence.
    destruct (exec_remote cfg c t s Hne) as (_ & Hcs & _). simpl in Hcs.
    rewrite Hcs. intros Hs. destruct (H t Hs) as [Hin H130].
    split; auto. intros Hpc.
    assert (control_lock (percpu s t) = Some t) as Hheld.
    { apply Hlock. now rewrite Hpc. }
    destruct (exec_locked cfg c t t s Hlock Hheld Hne) as (_ & Hsus & _).
    simpl in Hsus. rewrite Hsus. auto.
Qed.

Lemma acknowledged_inside_run sched : forall s,
  lock_inv s -> acknowledged_inside s ->
  acknowledged_inside (run cfg sched s).
Proof.
  induction sched as [|l sched IH]; intros s Hl H; auto.
  simpl. apply IH.
  - now apply lock_inv_step.
  - destruct l; [now apply acknowledged_inside_exec
                | now apply acknowledged_inside_start].
Qed.

(** X2.  From a state in which every core is in its guest with
    [cpu_suspended] clear and no lock is taken, whatever the cores then do:
    [cpu_suspended] of a core is set only while that core is inside the
    suspension loop of [check_events] (lines 100 to 111, and the loop test
    of line 130 with [suspend_cpu] still set).  In particular a core that is
    running its guest, or is anywhere else in the hypervisor, is never
    marked suspended; and the store of line 101 is reached only from the
    read of line 100 having found [suspend_cpu] set. *)
Theorem cpu_suspended_only_inside_suspension_loop s0 sched :
  quiescent s0 ->
  (forall t, cpu_suspended (percpu s0 t) = false) ->
  let s := run cfg sched s0 in
  (forall t, cpu_suspended (percpu s t) = true ->
             in_suspension (pcof s t) = true /\
             (pcof s t = Ev130 -> suspend_cpu (percpu s t) = true)) /\
  (forall t, pcof s t = Idle -> cpu_suspended (percpu s t) = false) /\
  (forall c t s1,
     pcof s1 t <> Ev101 -> pcof (exec cfg c s1) t = Ev101 ->
     c = t /\ pcof s1 t = Ev100 /\ suspend_cpu (percpu s1 t) = true).
Proof.
  intros [Hidle Hfree] Hclear s.
  assert (acknowledged_inside s) as H.
  { apply acknowledged_inside_run.
    - intros c t. rewrite Hidle. discriminate.
    - intros t Ht. rewrite Hclear in Ht. discriminate. }
  split; [exact H | split].
  - intros t Hpc. destruct (cpu_suspended (percpu s t)) eqn:Hcs; auto.
    destruct (H t Hcs) as [Hin _]. rewrite Hpc in Hin. discriminate.
  - intros c t s1. exec_cases c s1; intros; try congruence; auto.
Qed.

(** ** [wait_for_poweron] has one writer *)

(** X3.  A step changes [wait_for_poweron] of core [t] only if it is a step
    of [t] itself: the second store of [enter_cpu_off] (line 23) sets it, the
    store of line 122 in [check_events] clears it.  Hence no schedule made
    of steps of other cores changes it, which is what lets [check_events]
    read it at line 143 after the unlock. *)
Theorem wait_for_poweron_written_by_owner_only t :
  (forall l s,
     wait_for_poweron (percpu (step cfg l s) t)
       <> wait_for_poweron (percpu s t) ->
     l = Exec t /\
     (wait_for_poweron (percpu s t) = false -> exists k, pcof s t = Off23 k) /\
     (wait_for_poweron (percpu s t) = true -> pcof s t = Ev122)) /\
  (forall sched s,
     Forall (fun l => actor l <> t) sched ->
     wait_for_poweron (percpu (run cfg sched s) t)
       = wait_for_poweron (percpu s t)).
Proof.
  split.
  - intros l s. destruct l as [c | c f]; simpl.
    + exec_cases c s; intros Hd; try congruence;
        (split; [reflexivity|]); split; intros Hw; eauto; congruence.
    + rewrite percpu_start. congruence.
  - induction sched as [|l sched IH]; intros s Hf; auto.
    inversion Hf; subst. simpl. rewrite IH by assumption.
    destruct (step_remote cfg l t s) as (Hw & _); auto.
Qed.

(** ** The SGI dispatcher on the two known SGIs *)

(** X4.  [arch_handle_sgi] in one step of the receiving core [c]:
    for [SGI_INJECT] it adds [count_event] to the virtual-SGI counter, calls
    [irqchip_inject_pending] once and returns to the guest without entering
    [check_events]; for [SGI_EVENT] (when the two SGI numbers differ, as
    [case] labels must) it adds [count_event] to the management counter,
    makes no call and enters [check_events].  In both cases the other
    counters, all control flags, the lock and the data and program points of
    the other cores are left as they are. *)
Theorem arch_handle_sgi_dispatches s c irqn count_event :
  pcof s c = Sgi152 irqn count_event ->
  let s' := exec cfg c s in
  (irqn = SGI_INJECT cfg ->
   pcof s' c = Idle /\
   trace s' = (c, irqchip_inject_pending) :: trace s /\
   stats (percpu s' c) JAILHOUSE_CPU_STAT_VMEXITS_VSGI =
     wrap_stat cfg (stats (percpu s c) JAILHOUSE_CPU_STAT_VMEXITS_VSGI
                    + count_event) /\
   (forall k, k <> JAILHOUSE_CPU_STAT_VMEXITS_VSGI ->
              stats (percpu s' c) k = stats (percpu s c) k)) /\
  (irqn = SGI_EVENT cfg -> SGI_EVENT cfg <> SGI_INJECT cfg ->
   pcof s' c = Ev97 /\
   trace s' = trace s /\
   stats (percpu s' c) JAILHOUSE_CPU_STAT_VMEXITS_MANAGEMENT =
     wrap_stat cfg (stats (percpu s c) JAILHOUSE_CPU_STAT_VMEXITS_MANAGEMENT
                    + count_event) /\
   (forall k, k <> JAILHOUSE_CPU_STAT_VMEXITS_MANAGEMENT ->
              stats (percpu s' c) k = stats (percpu s c) k)) /\
  control_lock (percpu s' c) = control_lock (percpu s c) /\
  cpu_on_entry (percpu s' c) = cpu_on_entry (percpu s c) /\
  (forall f, get_field f (percpu s' c) = get_field f (percpu s c)) /\
  (forall c', c' <> c ->
     percpu s' c' = percpu s c' /\ pcof s' c' = pcof s c').
Proof.
  intros Hpc s'. subst s'. unfold exec. rewrite Hpc.
  split; [|split; [|split; [|split; [|split]]]].
  - intros ->. unfold arch_handle_sgi. rewrite Z.eqb_refl. unfold_ops. simpl.
    rewrite !upd_same. repeat split.
    intros k Hk. destruct k; simpl; congruence.
  - intros -> Hne. unfold arch_handle_sgi.
    destruct (Z.eqb_spec (SGI_EVENT cfg) (SGI_INJECT cfg)); [contradiction|].
    rewrite Z.eqb_refl. unfold_ops. simpl. rewrite !upd_same. repeat split.
    intros k Hk. destruct k; simpl; congruence.
  - destruct (arch_handle_sgi cfg (percpu s c) irqn count_event)
      as [[d es] b] eqn:Hh.
    destruct (arch_handle_sgi_frame cfg _ _ _ _ _ _ Hh) as (H1 & _).
    unfold_ops. simpl. now rewrite upd_same.
  - destruct (arch_handle_sgi cfg (percpu s c) irqn count_event)
      as [[d es] b] eqn:Hh.
    destruct (arch_handle_sgi_frame cfg _ _ _ _ _ _ Hh) as (_ & H2 & _).
    unfold_ops. simpl. now rewrite upd_same.
  - intros f.
    destruct (arch_handle_sgi cfg (percpu s c) irqn count_event)
      as [[d es] b] eqn:Hh.
    destruct (arch_handle_sgi_frame cfg _ _ _ _ _ _ Hh) as (_ & _ & H3).
    unfold_ops. simpl. rewrite upd_same. apply H3.
  - intros c' Hne.
    destruct (arch_handle_sgi cfg (percpu s c) irqn count_event)
      as [[d es] b].
    unfold_ops. simpl. rewrite !upd_other by assumption. auto.
Qed.



(** ** A core that is asked to suspend *)
Lemma held_inv_step c tr0 l s :
  no_start c l -> not_resume_store c l s ->
  held_inv c tr0 s -> held_inv c tr0 (step cfg l s).
Proof.
  intros Hl Hnr (new & Htr & Hsus & Hev & H).
  destruct (Nat.eq_dec (actor l) c) as [Heq | Hne].
  - destruct l as [c0 | c0 f]; simpl in Heq, Hl; [subst c0 | congruence].
    simpl. unfold held_inv.
    destruct (pcof s c) eqn:Hpc; try contradiction;
      own_step Hpc; simpl; repeat split; auto; try congruence.
    intros e [He | He]; [now subst | now apply Hev].
  - destruct (step_other_view cfg l c tr0 new s Hne Htr)
      as (Hpc & new' & Htr' & Hby & _).
    destruct (step_remote cfg l c s Hne) as (_ & Hcs & _). simpl in Hcs.
    exists new'. split; [exact Htr'|].
    split; [now apply suspend_cpu_kept|]. rewrite Hby, Hpc, Hcs. auto.
Qed.

Lemma held_inv_run c tr0 sched : forall s,
  Forall (no_start c) sched -> resume_free cfg c sched s ->
  held_inv c tr0 s -> held_inv c tr0 (run cfg sched s).
Proof.
  induction sched as [|l sched IH]; intros s Hns Hfree H; auto.
  destruct Hfree as [Hl Hrest]. inversion Hns; subst. simpl.
  apply IH; auto. now apply held_inv_step.
Qed.

Lemma spin_at_105 c s n :
  pcof s c = Ev105 -> suspend_cpu (percpu s c) = true ->
  run cfg (repeat (Exec c) n) s = s.
Proof.
  intros Hpc Hs. induction n as [|n IH]; auto.
  simpl. unfold_exec. rewrite Hpc. unfold load, get_field. now rewrite Hs.
Qed.

(** X6.  [check_events] entered on core [c] with [suspend_cpu] set, under
    any interleaving in which no core executes the store of
    [arch_resume_cpu(c)]: the core never gets beyond the wait loop of line
    105; it makes no call and no store other than [cpu_suspended = true];
    from the unlock of line 103 on [cpu_suspended] is set.  Running alone
    with its lock free, it reaches the wait loop in four steps, with
    [cpu_suspended] set and the lock released, and stays there however many
    steps it takes. *)
Theorem suspended_core_waits_at_line_105 s0 c sched :
  pcof s0 c = Ev97 -> suspend_cpu (percpu s0 c) = true ->
  Forall (no_start c) sched -> resume_free cfg c sched s0 ->
  let s := run cfg sched s0 in
  (exists new, trace s = new ++ trace s0 /\
     forall e, In e (by_core c new) -> e = Write c F_cpu_suspended true) /\
  (pcof s c = Ev97 \/ pcof s c = Ev100 \/ pcof s c = Ev101 \/
   (cpu_suspended (percpu s c) = true /\
    (pcof s c = Ev103 \/ pcof s c = Ev105))) /\
  (control_lock (percpu s0 c) = None ->
   forall n,
     let s' := run cfg (repeat (Exec c) (4 + n)) s0 in
     pcof s' c = Ev105 /\ cpu_suspended (percpu s' c) = true /\
     control_lock (percpu s' c) = None).
Proof.
  intros Hpc Hsus Hns Hfree s.
  assert (held_inv c (trace s0) s) as (new & Htr & Hs & Hev & H).
  { apply held_inv_run; auto. exists []. rewrite Hpc.
    repeat split; auto. intros e []. }
  split; [eauto | split].
  - destruct (pcof s c); try contradiction; tauto.
  - intros Hlk n s'. subst s'.
    rewrite repeat_app, run_app. cbn [repeat].
    solo_step. rewrite Hpc, Hlk. cbn -[run upd]. rewrite ?upd_same.
    solo_step. rewrite Hsus. do 2 solo_step. cbn [run].
    rewrite spin_at_105; cbn [pcof percpu]; rewrite ?upd_same; auto.
Qed.

(** ** A pending flush request *)
Lemma flushed_cons c e l : flushed c l -> flushed c (e :: l).
Proof.
  intros (after & before & ->). exists (e :: after), before. reflexivity.
Qed.

Lemma flush_inv_step c tr0 l s :
  no_start c l -> flush_inv c tr0 s -> flush_inv c tr0 (step cfg l s).
Proof.
  intros Hl (new & Htr & H).
  destruct (Nat.eq_dec (actor l) c) as [Heq | Hne].
  - destruct l as [c0 | c0 f]; simpl in Heq, Hl; [subst c0 | congruence].
    simpl. unfold flush_inv.
    destruct (pcof s c) eqn:Hpc; try contradiction;
      try (destruct k; try contradiction);
      own_step Hpc; simpl; auto using flushed_cons; try congruence;
      try (eexists; reflexivity).
    destruct H as (before & ->). exists [], before. reflexivity.
  - destruct (step_other_view cfg l c tr0 new s Hne Htr)
      as (Hpc & new' & Htr' & Hby & _).
    destruct (step_remote cfg l c s Hne) as (_ & _ & _ & _ & _ & _ & Hfl).
    exists new'. split; [exact Htr'|]. rewrite Hpc, Hby.
    destruct (pcof s c) eqn:Hpc0; try contradiction;
      try (destruct k; try contradiction); auto.
Qed.

(** Line 133 is reached only after [flush_vcpu_caches] has been read
    set. *)
Lemma ev133_entered c t r s :
  (forall r', pcof s t <> Ev133 r') -> pcof (exec cfg c s) t = Ev133 r ->
  c = t /\ pcof s t = Ev132 r /\ flush_vcpu_caches (percpu s t) = true.
Proof.
  intros Hn. pose proof (Hn r) as Hr. revert Hr.
  exec_cases c s; intros; try congruence; auto;
    match goal with
    | H : Ev133 _ = Ev133 _ |- _ => inversion H; subst; auto
    | H : pcof ?s ?t = Ev133 ?x |- _ => exfalso; apply (Hn x); exact H
    end.
Qed.

(** X7.  [check_events] entered on core [c] with [flush_vcpu_caches] set,
    under any interleaving with the other cores and whichever of the park,
    reset and plain branches the pass takes: when the pass has returned,
    the core has stored [flush_vcpu_caches = false] and called
    [arm_paging_vcpu_flush_tlbs] right after it; the call is made while the
    core holds its own [control_lock]; and line 133 is entered only from
    line 132 having read the flag set, so the pass never flushes without a
    request.  The pass returns when the core is not suspended and its lock
    is free. *)
Theorem pending_flush_is_served_under_the_lock s0 c sched :
  lock_inv s0 -> pcof s0 c = Ev97 ->
  flush_vcpu_caches (percpu s0 c) = true ->
  Forall (no_start c) sched ->
  let s := run cfg sched s0 in
  (pcof s c = Idle ->
   exists new, trace s = new ++ trace s0 /\ flushed c (by_core c new)) /\
  (forall r, pcof s c = Ev134 r -> control_lock (percpu s c) = Some c) /\
  (forall c' r s1,
     (forall r', pcof s1 c <> Ev133 r') ->
     pcof (exec cfg c' s1) c = Ev133 r ->
     c' = c /\ pcof s1 c = Ev132 r /\
     flush_vcpu_caches (percpu s1 c) = true) /\
  (control_lock (percpu s0 c) = None -> suspend_cpu (percpu s0 c) = false ->
   pcof (run cfg (repeat (Exec c) 25) s0) c = Idle).
Proof.
  intros Hlock Hpc Hfl Hns s.
  assert (flush_inv c (trace s0) s) as (new & Htr & H).
  { apply (run_invariant cfg (flush_inv c (trace s0)) (no_start c)); auto.
    - intros l s1 Hok H1. now apply flush_inv_step.
    - exists []. now rewrite Hpc. }
  split; [|split; [|split]].
  - intros Hidle. rewrite Hidle in H. eauto.
  - intros r Hr. apply (lock_inv_run cfg sched s0 Hlock c c). fold s.
    now rewrite Hr.
  - intros c' r s1. apply ev133_entered.
  - intros Hfree Hsus. apply solo_returns.
    + unfold unhindered. rewrite Hpc. simpl. auto.
    + rewrite Hpc. simpl. lia.
Qed.

(** ** The outcome of one event-check pass *)
Lemma no_reset_call_cons e l :
  (forall x, e <> arm_cpu_reset x) -> no_reset_call l ->
  no_reset_call (e :: l).
Proof.
  intros He Hl x [Hx | Hx]; [now apply (He x) | now apply (Hl x)].
Qed.

Lemma outcome_inv_step c e tr0 l s :
  no_start c l ->
  outcome_inv cfg c e tr0 s -> outcome_inv cfg c e tr0 (step cfg l s).
Proof.
  intros Hl (new & Htr & Hentry & H).
  destruct (Nat.eq_dec (actor l) c) as [Heq | Hne].
  - destruct l as [c0 | c0 f]; simpl in Heq, Hl; [subst c0 | congruence].
    simpl. unfold outcome_inv, outcome in *.
    destruct (pcof s c) eqn:Hpc; try contradiction;
      try (destruct k); try (destruct r);
      repeat match type of H with _ /\ _ => destruct H as [? H] end;
      own_step Hpc; simpl;
      repeat match goal with
             | |- _ /\ _ => split
             | |- no_reset_call (_ :: _) =>
                 apply no_reset_call_cons; [discriminate|]
             end;
      auto; try congruence.
    + (* line 34 *) eexists. eauto.
    + (* line 35 *)
      destruct H as (rest & -> & Hr). left. split; auto. eauto.
    + (* line 146 *)
      right. left. repeat split; auto. rewrite Hentry. eauto.
  - destruct (step_other_view cfg l c tr0 new s Hne Htr)
      as (Hpc & new' & Htr' & Hby & _).
    destruct (step_remote cfg l c s Hne) as (Hw & _). simpl in Hw.
    exists new'. split; [exact Htr'|].
    split; [now rewrite cpu_on_entry_step|]. now rewrite Hpc, Hby, Hw.
Qed.

(** X8.  One pass of [check_events] on core [c], whatever is requested and
    under any interleaving with the other cores: when the pass has returned
    exactly one of three things has happened.  Either [wait_for_poweron] is
    set and the last two actions of the core are [arm_cpu_reset(0)] followed
    by [arm_paging_vcpu_init(&parking_mm)]; or [wait_for_poweron] is clear,
    [cpu_on_entry] is a valid address, and the last action of the core is
    [arm_cpu_reset(cpu_on_entry)], made after it cleared [reset]; or
    [wait_for_poweron] is clear and the core has not called [arm_cpu_reset]
    at all.  In each case [arm_cpu_reset] is called at most once.  The pass
    returns when the core is not suspended and its lock is free. *)
Theorem pass_ends_parked_reset_or_untouched s0 c sched :
  pcof s0 c = Ev97 -> Forall (no_start c) sched ->
  let s := run cfg sched s0 in
  (pcof s c = Idle ->
   exists new,
     trace s = new ++ trace s0 /\
     outcome cfg c (cpu_on_entry (percpu s0 c))
       (wait_for_poweron (percpu s c)) (by_core c new)) /\
  (control_lock (percpu s0 c) = None -> suspend_cpu (percpu s0 c) = false ->
   pcof (run cfg (repeat (Exec c) 25) s0) c = Idle).
Proof.
  intros Hpc Hns s. split.
  2: { intros Hfree Hsus. apply solo_returns.
       - unfold unhindered. rewrite Hpc. simpl. auto.
       - rewrite Hpc. simpl. lia. }
  intros Hidle.
  assert (outcome_inv cfg c (cpu_on_entry (percpu s0 c)) (trace s0) s)
    as (new & Htr & _ & H).
  { apply (run_invariant cfg
             (outcome_inv cfg c (cpu_on_entry (percpu s0 c)) (trace s0))
             (no_start c)); auto.
    - intros l s1 Hok H1. now apply outcome_inv_step.
    - exists []. rewrite Hpc. repeat split. intros e []. }
  rewrite Hidle in H. eauto.
Qed.

(** ** An event with nothing pending *)

(** X9.  A management SGI taken by a core [c] for which nothing is
    requested ([suspend_cpu], [park], [reset], [wait_for_poweron] and
    [flush_vcpu_caches] clear, lock free), with the core running alone: after
    fourteen steps the core is back in its guest; its management counter has
    grown by [count_event], [cpu_suspended] has been stored clear, and
    nothing else has changed on this or any other core; the history gains
    that one store and no call. *)
Theorem event_with_nothing_pending_is_harmless s c irqn count_event :
  pcof s c = Sgi152 irqn count_event ->
  irqn = SGI_EVENT cfg -> SGI_EVENT cfg <> SGI_INJECT cfg ->
  control_lock (percpu s c) = None ->
  suspend_cpu (percpu s c) = false -> park (percpu s c) = false ->
  reset (percpu s c) = false -> wait_for_poweron (percpu s c) = false ->
  flush_vcpu_caches (percpu s c) = false ->
  let s' := run cfg (repeat (Exec c) 14) s in
  pcof s' c = Idle /\
  percpu s' c =
    stat_add cfg JAILHOUSE_CPU_STAT_VMEXITS_MANAGEMENT count_event
      (set_field F_cpu_suspended false (percpu s c)) /\
  (forall c', c' <> c ->
     percpu s' c' = percpu s c' /\ pcof s' c' = pcof s c') /\
  trace s' = (c, Write c F_cpu_suspended false) :: trace s.
Proof.
  intros Hpc -> Hne Hlk Hsus Hpark Hreset Hwait Hflush s'. subst s'.
  destruct (percpu s c) as [lk su cs pk rs en wf fl st] eqn:Hd.
  simpl in Hlk, Hsus, Hpark, Hreset, Hwait, Hflush. subst. cbn [repeat].
  rewrite run_cons. unfold step, exec. rewrite Hpc, Hd.
  unfold arch_handle_sgi.
  destruct (Z.eqb_spec (SGI_EVENT cfg) (SGI_INJECT cfg)); [contradiction|].
  rewrite Z.eqb_refl. unfold_ops. cbn -[run upd].
  do 13 solo_step.
  cbn [run pcof percpu trace]. rewrite !upd_same.
  split; [reflexivity|]. split; [reflexivity|]. split; [|reflexivity].
  intros c' Hc. rewrite !upd_other by assumption. auto.
Qed.

(** ** Resetting a suspended core *)
Lemma spin_step_105 c s :
  pcof s c = Ev105 -> suspend_cpu (percpu s c) = true -> exec cfg c s = s.
Proof.
  intros Hpc Hs. unfold_exec. rewrite Hpc. unfold load, get_field.
  now rewrite Hs.
Qed.

Lemma reset_wake_inv_step a t e tr0 l s :
  a <> t -> e <> PSCI_INVALID_ADDRESS cfg ->
  lock_inv s -> no_start a l -> no_start t l ->
  (actor l <> a -> not_resume_store t l s) ->
  reset_wake_inv a t e tr0 s -> reset_wake_inv a t e tr0 (step cfg l s).
Proof.
  intros Hat He Hlock Hna Hnt Hres [HB | [Ha HA]].
  - destruct HB as (Hpt & Hsus & Hentry & (new & Htr & Hreq) & Hpa).
    destruct (Nat.eq_dec (actor l) a) as [Heq | Hne].
    + (* a step of the requester *)
      destruct l as [c0 | c0 f]; simpl in Heq, Hna; [subst c0 | congruence].
      simpl.
      assert (pcof (exec cfg a s) t = Ev105) as Hpt'.
      { rewrite pcof_exec_other by congruence. exact Hpt. }
      destruct (pcof s a) eqn:Hpc; try contradiction.
      * (* line 72 *)
        destruct Hpa as [-> Hrs]. left. unfold reset_wake_before.
        rewrite Hpt'. revert Hpt'. unfold_exec. rewrite Hpc. unfold_ops.
        destruct (control_lock (percpu s t)) eqn:Hl; simpl; intros _.
        -- rewrite Hpc. repeat split; eauto.
        -- rewrite !upd_same. repeat split; eauto.
      * (* line 74: the resume store *)
        destruct Hpa as [-> Hrs]. right. split.
        -- left. unfold_exec. rewrite Hpc. unfold_ops. simpl.
           apply upd_same.
        -- unfold events_reset_inv. rewrite Hpt'.
           unfold_exec. rewrite Hpc. unfold_ops. simpl. rewrite !upd_same.
           exists ((a, Write t F_suspend_cpu false) :: new).
           split; [now rewrite Htr|]. simpl. repeat split; auto.
           intros Hp. apply park_requested_cons. auto.
      * (* line 81: the request store *)
        subst. left. unfold reset_wake_before.
        rewrite Hpt'. unfold_exec. rewrite Hpc. unfold_ops. simpl.
        rewrite !upd_same. simpl. repeat split; auto.
        exists ((a, Write t F_reset true) :: new).
        split; [now rewrite Htr|]. intros Hp. apply park_requested_cons. auto.
    + destruct (Nat.eq_dec (actor l) t) as [Heqt | Hnet].
      * (* the suspended core spins *)
        destruct l as [c0 | c0 f]; simpl in Heqt, Hnt; [subst c0 | congruence].
        simpl. rewrite spin_step_105 by assumption. left.
        repeat split; eauto.
      * (* another core *)
        left.
        destruct (step_other_view cfg l t tr0 new s Hnet Htr)
          as (Hpt' & new' & Htr' & _ & Hsub & _).
        destruct (step_remote cfg l t s Hnet) as (_ & _ & _ & _ & _ & Hrs & _).
        unfold reset_wake_before. rewrite Hpt'.
        rewrite (pcof_step_other cfg l a s Hne), cpu_on_entry_step.
        repeat split; auto.
        -- apply suspend_cpu_kept; auto.
        -- exists new'. split; [exact Htr'|].
           now apply (park_requested_other cfg l t false new new' tr0 s).
        -- destruct (pcof s a); try contradiction; auto.
           all: destruct Hpa as [-> Hr]; split; auto.
  - right. split.
    + destruct (Nat.eq_dec (actor l) a) as [Heq | Hne].
      * destruct l as [c0 | c0 f]; simpl in Heq, Hna; [subst c0 | congruence].
        simpl. destruct Ha as [Ha | Ha]; unfold_exec; rewrite Ha; auto.
        right. unfold_ops. simpl. apply upd_same.
      * now rewrite (pcof_step_other cfg l a s Hne).
    + now apply events_reset_inv_step.
Qed.

Lemma reset_wake_inv_run a t e tr0 sched : forall s,
  a <> t -> e <> PSCI_INVALID_ADDRESS cfg ->
  lock_inv s -> Forall (no_start a) sched -> Forall (no_start t) sched ->
  only_resumer cfg a t sched s ->
  reset_wake_inv a t e tr0 s -> reset_wake_inv a t e tr0 (run cfg sched s).
Proof.
  induction sched as [|l sched IH]; intros s Hat He Hlock Hna Hnt Hres H; auto.
  destruct Hres as [Hl Hrest]. inversion Hna; inversion Hnt; subst. simpl.
  apply IH; auto.
  - now apply lock_inv_step.
  - now apply reset_wake_inv_step.
Qed.

Lemma only_resumer_app a t sched1 sched2 : forall s,
  only_resumer cfg a t sched1 s ->
  only_resumer cfg a t sched2 (run cfg sched1 s) ->
  only_resumer cfg a t (sched1 ++ sched2) s.
Proof.
  induction sched1 as [|l sched1 IH]; intros s H1 H2; auto.
  destruct H1 as [Hl H1]. split; [exact Hl | now apply IH].
Qed.

Lemma only_resumer_self a t n : forall s,
  only_resumer cfg a t (repeat (Exec a) n) s.
Proof.
  induction n as [|n IH]; intros s; simpl; [exact I|].
  split; [intros H; now contradiction H | apply IH].
Qed.

Lemma only_resumer_pass a t m : forall s,
  in_pass (pcof s t) = true -> only_resumer cfg a t (repeat (Exec t) m) s.
Proof.
  induction m as [|m IH]; intros s Hin; simpl; [exact I|].
  split.
  - intros _ E. rewrite E in Hin. discriminate.
  - apply IH. now destruct (pass_step_no_park cfg t t s Hin).
Qed.

Lemma forall_repeat (P : label -> Prop) l n :
  P l -> Forall P (repeat l n).
Proof.
  intros H. apply Forall_forall. intros x Hx. apply repeat_spec in Hx.
  now subst.
Qed.

(** X10.  Core [t] is suspended in the wait loop of line 105 and core [a]
    calls [arch_reset_cpu(t)], with a valid entry address [e] in
    [cpu_on_entry] of [t] and [park] of [t] clear; no other core executes a
    resume store on [t], and nobody stores a park request for [t].  Under
    any such interleaving: [t] stays in the wait loop until [a] has stored
    [suspend_cpu = false], by which time [reset] is already set ([a] stores
    the request first); [t] never enters the power-off path; and when [t]
    has left [check_events] it has cleared [reset] and [wait_for_poweron]
    and its last action is [arm_cpu_reset(e)]: the request is not lost.
    With the lock of [t] free, four steps of [a] followed by twenty-one of
    [t] end in that way. *)
Theorem reset_of_suspended_core_is_not_lost s0 a t e sched :
  a <> t -> lock_inv s0 ->
  pcof s0 a = Reset81 t -> pcof s0 t = Ev105 ->
  suspend_cpu (percpu s0 t) = true ->
  cpu_on_entry (percpu s0 t) = e -> e <> PSCI_INVALID_ADDRESS cfg ->
  park (percpu s0 t) = false ->
  (Forall (no_start a) sched -> Forall (no_start t) sched ->
   only_resumer cfg a t sched s0 ->
   let s := run cfg sched s0 in
   ((pcof s a = Reset81 t \/ pcof s a = Res72 t \/ pcof s a = Res74 t) ->
    pcof s t = Ev105) /\
   ((pcof s a = Res72 t \/ pcof s a = Res74 t) ->
    reset (percpu s t) = true) /\
   (forall new, trace s = new ++ trace s0 ->
      (forall c', ~ In (c', Write t F_park true) new) ->
      power_off (pcof s t) = false /\
      (pcof s t = Idle ->
       reset_entered t e new s /\
       exists earlier, by_core t new = arm_cpu_reset e :: earlier))) /\
  (control_lock (percpu s0 t) = None ->
   let s := run cfg (repeat (Exec a) 4 ++ repeat (Exec t) 21) s0 in
   pcof s t = Idle /\
   exists new earlier,
     trace s = new ++ trace s0 /\ reset_entered t e new s /\
     by_core t new = arm_cpu_reset e :: earlier).
Proof.
  intros Hat Hlock Hpa Hpt Hsus Hentry He Hpark.
  assert (forall sched',
            Forall (no_start a) sched' -> Forall (no_start t) sched' ->
            only_resumer cfg a t sched' s0 ->
            reset_wake_inv a t e (trace s0) (run cfg sched' s0)) as Hinv.
  { intros sched' Hna Hnt Hres. apply reset_wake_inv_run; auto.
    left. unfold reset_wake_before. rewrite Hpa. repeat split; auto.
    exists []. split; auto. congruence. }
  assert (forall sched',
            Forall (no_start a) sched' -> Forall (no_start t) sched' ->
            only_resumer cfg a t sched' s0 ->
            forall new, trace (run cfg sched' s0) = new ++ trace s0 ->
            (forall c', ~ In (c', Write t F_park true) new) ->
            power_off (pcof (run cfg sched' s0) t) = false /\
            (pcof (run cfg sched' s0) t = Idle ->
             reset_entered t e new (run cfg sched' s0) /\
             exists earlier, by_core t new = arm_cpu_reset e :: earlier))
    as Hgen.
  { intros sched' Hna Hnt Hres new Htr Hno.
    destruct (Hinv sched' Hna Hnt Hres) as [HB | [_ HA]].
    - destruct HB as (Hp & _). rewrite Hp. split; [reflexivity | discriminate].
    - destruct HA as (new0 & Htr0 & _ & Hreq & H).
      rewrite Htr in Htr0. apply app_inv_tail in Htr0. subst new0.
      assert (~ park_requested t false new) as Hnp.
      { intros [Hf | [c' Hc']]; [discriminate | now apply (Hno c')]. }
      split.
      + destruct (pcof (run cfg sched' s0) t); try destruct k; try destruct r;
          simpl in *; tauto.
      + intros Hidle. rewrite Hidle in H. tauto. }
  split.
  - intros Hna Hnt Hres s. split; [|split].
    + intros Ha. destruct (Hinv sched Hna Hnt Hres) as [HB | [Ha' _]].
      * now destruct HB.
      * fold s in Ha'. destruct Ha as [Ha | [Ha | Ha]], Ha' as [Ha' | Ha'];
          congruence.
    + intros Ha. destruct (Hinv sched Hna Hnt Hres) as [HB | [Ha' _]].
      * destruct HB as (_ & _ & _ & _ & HB). fold s in HB.
        destruct Ha as [Ha | Ha]; rewrite Ha in HB; tauto.
      * fold s in Ha'. destruct Ha as [Ha | Ha], Ha' as [Ha' | Ha'];
          congruence.
    + now apply Hgen.
  - intros Hfree s.
    assert (exists s4,
              run cfg (repeat (Exec a) 4) s0 = s4 /\
              pcof s4 t = Ev105 /\ suspend_cpu (percpu s4 t) = false /\
              control_lock (percpu s4 t) = None /\
              trace s4 = [(a, Write t F_suspend_cpu false);
                          (a, Write t F_reset true)] ++ trace s0)
      as (s4 & Hs4 & Hp4 & Hsus4 & Hlk4 & Htr4).
    { eexists. split; [reflexivity|]. cbn [repeat].
      solo_step. rewrite Hpa. cbn -[run upd]. rewrite ?upd_same.
      solo_step. unfold upd at 1.
      destruct (Nat.eqb t t) eqn:E; [|now rewrite Nat.eqb_refl in E].
      cbn -[run upd]. rewrite Hfree. cbn -[run upd]. rewrite ?upd_same.
      do 2 solo_step. cbn [run pcof percpu trace].
      rewrite !upd_same. rewrite !upd_other by congruence.
      repeat split; auto. }
    assert (pcof s t = Idle) as Hidle.
    { unfold s. rewrite run_app, Hs4. apply solo_returns.
      - unfold unhindered. rewrite Hp4. simpl. auto.
      - rewrite Hp4. simpl. lia. }
    split; [exact Hidle|].
    destruct (solo_trace cfg t t 21 s4) as (new2 & Hnew2 & Hno2).
    { now rewrite Hp4. }
    assert (trace s = (new2 ++ [(a, Write t F_suspend_cpu false);
                                (a, Write t F_reset true)]) ++ trace s0)
      as Htr.
    { unfold s. rewrite run_app, Hs4, Hnew2, Htr4. now rewrite app_assoc. }
    destruct (Hgen (repeat (Exec a) 4 ++ repeat (Exec t) 21)) with
      (new := new2 ++ [(a, Write t F_suspend_cpu false);
                       (a, Write t F_reset true)]) as (_ & Hres); auto.
    + apply Forall_app. split; apply forall_repeat; exact I.
    + apply Forall_app. split; apply forall_repeat; exact I.
    + apply only_resumer_app; [apply only_resumer_self|].
      rewrite Hs4. apply only_resumer_pass. now rewrite Hp4.
    + intros c' Hc. apply in_app_or in Hc. destruct Hc as [Hc | Hc].
      * now apply (Hno2 c').
      * simpl in Hc. destruct Hc as [Hc | [Hc | []]]; discriminate.
    + destruct (Hres Hidle) as (Hre & earlier & Hby). eauto.
Qed.

(** ** The suspend handshake *)

(** X11.  [arch_suspend_cpu(t)] called by core [a] on a running core [t]
    whose lock is free, followed by the delivery of the SGI to [t], followed
    by one more step of [a].  After its six steps [a] has stored
    [suspend_cpu], sent [SGI_EVENT] to [t] and waits at line 62, where a
    further step changes nothing.  [t], on taking the SGI, goes through
    [arch_handle_sgi] into [check_events], stores [cpu_suspended = true]
    under its lock, releases the lock and waits at line 105, where a
    further step changes nothing.  The next step of [a] then returns from
    [arch_suspend_cpu], with [t] suspended and its lock free. *)
Theorem suspend_handshake_completes s0 a t count_event :
  a <> t -> SGI_EVENT cfg <> SGI_INJECT cfg ->
  pcof s0 a = Idle -> pcof s0 t = Idle ->
  control_lock (percpu s0 t) = None ->
  cpu_suspended (percpu s0 t) = false ->
  let s1 :=
    run cfg (Start a (Call_arch_suspend_cpu t) :: repeat (Exec a) 5) s0 in
  let s2 :=
    run cfg (Start t (Call_arch_handle_sgi (SGI_EVENT cfg) count_event)
               :: repeat (Exec t) 5) s1 in
  let s3 := exec cfg a s2 in
  (pcof s1 a = Susp62 t /\ pcof s1 t = Idle /\
   trace s1 =
     [(a, irqchip_send_sgi (Z.shiftl 1 (Z.of_nat t)) (SGI_EVENT cfg));
      (a, Write t F_suspend_cpu true)] ++ trace s0 /\
   exec cfg a s1 = s1) /\
  (pcof s2 t = Ev105 /\ pcof s2 a = Susp62 t /\
   trace s2 = (t, Write t F_cpu_suspended true) :: trace s1 /\
   exec cfg t s2 = s2) /\
  (pcof s3 a = Idle /\ pcof s3 t = Ev105 /\ suspended t s3 /\
   control_lock (percpu s3 t) = None /\ trace s3 = trace s2).
Proof.
  intros Hat Hne Hpa Hpt Hlk Hcs.
  assert (t <> a) as Hta by congruence.
  destruct (percpu s0 t) as [lk su cs pk rs en wf fl st] eqn:Hd.
  simpl in Hlk, Hcs. subst lk cs.
  assert (exists s1,
            run cfg (Start a (Call_arch_suspend_cpu t) :: repeat (Exec a) 5) s0
            = s1 /\
            pcof s1 a = Susp62 t /\ pcof s1 t = Idle /\
            percpu s1 t = mk_per_cpu None true false pk rs en wf fl st /\
            trace s1 =
              [(a, irqchip_send_sgi (Z.shiftl 1 (Z.of_nat t)) (SGI_EVENT cfg));
               (a, Write t F_suspend_cpu true)] ++ trace s0)
    as (s1 & Hs1 & Hpa1 & Hpt1 & Hd1 & Htr1).
  { eexists. split; [reflexivity|]. cbn [repeat].
    rewrite run_cons. unfold step, start. rewrite Hpa. unfold entry.
    unfold goto. solo_step. rewrite Hd. cbn -[run upd]. rewrite ?upd_same.
    do 4 solo_step. cbn [run pcof percpu trace].
    rewrite !upd_same. rewrite !upd_other by congruence.
    repeat split; auto. }
  assert (exists s2,
            run cfg (Start t (Call_arch_handle_sgi (SGI_EVENT cfg) count_event)
                       :: repeat (Exec t) 5) s1 = s2 /\
            pcof s2 t = Ev105 /\ pcof s2 a = Susp62 t /\
            percpu s2 t =
              stat_add cfg JAILHOUSE_CPU_STAT_VMEXITS_MANAGEMENT count_event
                (mk_per_cpu None true true pk rs en wf fl st) /\
            trace s2 = (t, Write t F_cpu_suspended true) :: trace s1)
    as (s2 & Hs2 & Hpt2 & Hpa2 & Hd2 & Htr2).
  { eexists. split; [reflexivity|]. cbn [repeat].
    rewrite run_cons. unfold step, start. rewrite Hpt1. unfold entry.
    unfold goto. rewrite run_cons. unfold step, exec. cbn [pcof percpu trace].
    rewrite upd_same, Hd1. unfold arch_handle_sgi.
    destruct (Z.eqb_spec (SGI_EVENT cfg) (SGI_INJECT cfg)); [contradiction|].
    rewrite Z.eqb_refl. unfold_ops. cbn -[run upd]. rewrite ?upd_same.
    do 4 solo_step. cbn [run pcof percpu trace].
    rewrite !upd_same. rewrite !upd_other by congruence.
    repeat split; auto. }
  cbv zeta. rewrite Hs1, Hs2.
  split; [|split].
  - repeat split; auto. unfold_exec. rewrite Hpa1. unfold_ops.
    now rewrite Hd1.
  - repeat split; auto. unfold_exec. rewrite Hpt2. unfold_ops.
    now rewrite Hd2.
  - unfold suspended. unfold_exec. rewrite Hpa2. unfold_ops. rewrite Hd2.
    cbn. rewrite upd_same, upd_other by congruence. rewrite Hpt2, Hd2.
    cbn. repeat split; auto. discriminate.
Qed.

(** ** Parking a suspended core *)
Lemma park_pass_inv_step c tr0 l s :
  lock_inv s -> no_start c l ->
  park_pass_inv c tr0 s -> park_pass_inv c tr0 (step cfg l s).
Proof.
  intros Hlock Hl (new & Htr & H).
  destruct (Nat.eq_dec (actor l) c) as [Heq | Hne].
  - destruct l as [c0 | c0 f]; simpl in Heq, Hl; [subst c0 | congruence].
    simpl. unfold park_pass_inv, parked, powered_off in *.
    destruct (pcof s c) eqn:Hpc; try contradiction;
      try (destruct k; try contradiction);
      try (destruct r; try contradiction);
      own_step Hpc; simpl; intuition congruence.
  - destruct (step_other_view cfg l c tr0 new s Hne Htr)
      as (Hpc & new' & Htr' & Hby & Hsub & _).
    destruct (step_remote cfg l c s Hne) as (Hw & _ & _ & _ & Hpk & _).
    pose proof (Hlock c c) as Hown.
    exists new'. split; [exact Htr'|]. rewrite Hpc.
    unfold parked, powered_off in *. simpl in Hw. rewrite Hw.
    destruct (pcof s c) eqn:Hpc0; try contradiction;
      try (destruct k; try contradiction);
      try (destruct r; try contradiction); simpl in *; try solve [intuition auto].
    destruct (step_locked cfg l c c s Hlock (Hown eq_refl) Hne) as (_ & Hs & _).
    simpl in Hs. rewrite Hs. intuition auto.
Qed.

Lemma park_wake_inv_step a t tr0 l s :
  a <> t -> lock_inv s -> no_start a l -> no_start t l ->
  (actor l <> a -> not_resume_store t l s) ->
  park_wake_inv a t tr0 s -> park_wake_inv a t tr0 (step cfg l s).
Proof.
  intros Hat Hlock Hna Hnt Hres [HB | [Ha HA]].
  - destruct HB as (Hpt & Hsus & (new & Htr) & Hpa).
    destruct (Nat.eq_dec (actor l) a) as [Heq | Hne].
    + (* a step of the requester *)
      destruct l as [c0 | c0 f]; simpl in Heq, Hna; [subst c0 | congruence].
      simpl.
      assert (pcof (exec cfg a s) t = Ev105) as Hpt'.
      { rewrite pcof_exec_other by congruence. exact Hpt. }
      destruct (pcof s a) eqn:Hpc; try contradiction.
      * (* line 72 *)
        destruct Hpa as [-> Hpk]. left. unfold park_wake_before.
        rewrite Hpt'. revert Hpt'. unfold_exec. rewrite Hpc. unfold_ops.
        destruct (control_lock (percpu s t)) eqn:Hl; simpl; intros _.
        -- rewrite Hpc. repeat split; eauto.
        -- rewrite !upd_same. repeat split; eauto.
      * (* line 74: the resume store *)
        destruct Hpa as [-> Hpk]. right. split.
        -- left. unfold_exec. rewrite Hpc. unfold_ops. simpl.
           apply upd_same.
        -- unfold park_pass_inv. rewrite Hpt'.
           unfold_exec. rewrite Hpc. unfold_ops. simpl. rewrite !upd_same.
           exists ((a, Write t F_suspend_cpu false) :: new).
           split; [now rewrite Htr|]. simpl. exact Hpk.
      * (* line 88: the request store *)
        subst. left. unfold park_wake_before.
        rewrite Hpt'. unfold_exec. rewrite Hpc. unfold_ops. simpl.
        rewrite !upd_same. simpl. repeat split; auto.
        exists ((a, Write t F_park true) :: new). now rewrite Htr.
    + destruct (Nat.eq_dec (actor l) t) as [Heqt | Hnet].
      * (* the suspended core spins *)
        destruct l as [c0 | c0 f]; simpl in Heqt, Hnt; [subst c0 | congruence].
        simpl. rewrite spin_step_105 by assumption. left.
        repeat split; eauto.
      * (* another core *)
        left.
        destruct (step_other_view cfg l t tr0 new s Hnet Htr)
          as (Hpt' & new' & Htr' & _).
        destruct (step_remote cfg l t s Hnet) as (_ & _ & _ & _ & Hpk & _).
        unfold park_wake_before. rewrite Hpt'.
        rewrite (pcof_step_other cfg l a s Hne).
        repeat split; eauto.
        -- apply suspend_cpu_kept; auto.
        -- destruct (pcof s a); try contradiction; auto.
           all: destruct Hpa as [-> Hr]; split; auto.
  - right. split.
    + destruct (Nat.eq_dec (actor l) a) as [Heq | Hne].
      * destruct l as [c0 | c0 f]; simpl in Heq, Hna; [subst c0 | congruence].
        simpl. destruct Ha as [Ha | Ha]; unfold_exec; rewrite Ha; auto.
        right. unfold_ops. simpl. apply upd_same.
      * now rewrite (pcof_step_other cfg l a s Hne).
    + now apply park_pass_inv_step.
Qed.

Lemma park_wake_inv_run a t tr0 sched : forall s,
  a <> t -> lock_inv s ->
  Forall (no_start a) sched -> Forall (no_start t) sched ->
  only_resumer cfg a t sched s ->
  park_wake_inv a t tr0 s -> park_wake_inv a t tr0 (run cfg sched s).
Proof.
  induction sched as [|l sched IH]; intros s Hat Hlock Hna Hnt Hres H; auto.
  destruct Hres as [Hl Hrest]. inversion Hna; inversion Hnt; subst. simpl.
  apply IH; auto.
  - now apply lock_inv_step.
  - now apply park_wake_inv_step.
Qed.

(** X12.  Core [t] is suspended in the wait loop of line 105 and core [a]
    calls [arch_park_cpu(t)]; no other core executes a resume store on [t].
    Under any such interleaving, whatever else is requested of [t]
    meanwhile: [t] stays in the wait loop until [a] has stored
    [suspend_cpu = false], by which time [park] is already set; [t] then
    never reaches the [reset] check nor the reset-entry transition; and
    when [t] has left [check_events] it has cleared [park], set
    [wait_for_poweron] and gone through [arm_cpu_park].  With the lock of
    [t] free, four steps of [a] followed by twenty-one of [t] end in that
    way. *)
Theorem park_of_suspended_core_parks_it s0 a t sched :
  a <> t -> lock_inv s0 ->
  pcof s0 a = ParkReq88 t -> pcof s0 t = Ev105 ->
  suspend_cpu (percpu s0 t) = true ->
  (Forall (no_start a) sched -> Forall (no_start t) sched ->
   only_resumer cfg a t sched s0 ->
   let s := run cfg sched s0 in
   ((pcof s a = ParkReq88 t \/ pcof s a = Res72 t \/ pcof s a = Res74 t) ->
    pcof s t = Ev105) /\
   ((pcof s a = Res72 t \/ pcof s a = Res74 t) ->
    park (percpu s t) = true) /\
   reset_check (pcof s t) = false /\
   reset_entry (pcof s t) = false /\
   (pcof s t = Idle ->
    exists new, trace s = new ++ trace s0 /\ parked t new s)) /\
  (control_lock (percpu s0 t) = None ->
   let s := run cfg (repeat (Exec a) 4 ++ repeat (Exec t) 21) s0 in
   pcof s t = Idle /\
   exists new, trace s = new ++ trace s0 /\ parked t new s).
Proof.
  intros Hat Hlock Hpa Hpt Hsus.
  assert (forall sched',
            Forall (no_start a) sched' -> Forall (no_start t) sched' ->
            only_resumer cfg a t sched' s0 ->
            park_wake_inv a t (trace s0) (run cfg sched' s0)) as Hinv.
  { intros sched' Hna Hnt Hres. apply park_wake_inv_run; auto.
    left. unfold park_wake_before. rewrite Hpa. repeat split; auto.
    now exists []. }
  assert (forall sched',
            Forall (no_start a) sched' -> Forall (no_start t) sched' ->
            only_resumer cfg a t sched' s0 ->
            pcof (run cfg sched' s0) t = Idle ->
            exists new, trace (run cfg sched' s0) = new ++ trace s0 /\
                        parked t new (run cfg sched' s0)) as Hgen.
  { intros sched' Hna Hnt Hres Hidle.
    destruct (Hinv sched' Hna Hnt Hres) as [HB | [_ HA]].
    - destruct HB as (Hp & _). congruence.
    - destruct HA as (new & Htr & H). rewrite Hidle in H. eauto. }
  split.
  - intros Hna Hnt Hres s. split; [|split; [|split; [|split]]].
    + intros Ha. destruct (Hinv sched Hna Hnt Hres) as [HB | [Ha' _]].
      * now destruct HB.
      * fold s in Ha'. destruct Ha as [Ha | [Ha | Ha]], Ha' as [Ha' | Ha'];
          congruence.
    + intros Ha. destruct (Hinv sched Hna Hnt Hres) as [HB | [Ha' _]].
      * destruct HB as (_ & _ & _ & HB). fold s in HB.
        destruct Ha as [Ha | Ha]; rewrite Ha in HB; tauto.
      * fold s in Ha'. destruct Ha as [Ha | Ha], Ha' as [Ha' | Ha'];
          congruence.
    + destruct (Hinv sched Hna Hnt Hres) as [HB | [_ HA]].
      * destruct HB as (Hp & _). fold s in Hp. now rewrite Hp.
      * destruct HA as (new & _ & H). fold s in H.
        destruct (pcof s t); try destruct k; try destruct r; simpl in *; tauto.
    + destruct (Hinv sched Hna Hnt Hres) as [HB | [_ HA]].
      * destruct HB as (Hp & _). fold s in Hp. now rewrite Hp.
      * destruct HA as (new & _ & H). fold s in H.
        destruct (pcof s t); try destruct k; try destruct r; simpl in *; tauto.
    + now apply Hgen.
  - intros Hfree s.
    assert (exists s4,
              run cfg (repeat (Exec a) 4) s0 = s4 /\
              pcof s4 t = Ev105 /\ suspend_cpu (percpu s4 t) = false /\
              control_lock (percpu s4 t) = None)
      as (s4 & Hs4 & Hp4 & Hsus4 & Hlk4).
    { eexists. split; [reflexivity|]. cbn [repeat].
      solo_step. rewrite Hpa. cbn -[run upd]. rewrite ?upd_same.
      solo_step. unfold upd at 1.
      destruct (Nat.eqb t t) eqn:E; [|now rewrite Nat.eqb_refl in E].
      cbn -[run upd]. rewrite Hfree. cbn -[run upd]. rewrite ?upd_same.
      do 2 solo_step. cbn [run pcof percpu trace].
      rewrite !upd_same. rewrite !upd_other by congruence.
      repeat split; auto. }
    assert (pcof s t = Idle) as Hidle.
    { unfold s. rewrite run_app, Hs4. apply solo_returns.
      - unfold unhindered. rewrite Hp4. simpl. auto.
      - rewrite Hp4. simpl. lia. }
    split; [exact Hidle|].
    apply Hgen; auto.
    + apply Forall_app. split; apply forall_repeat; exact I.
    + apply Forall_app. split; apply forall_repeat; exact I.
    + apply only_resumer_app; [apply only_resumer_self|].
      rewrite Hs4. apply only_resumer_pass. now rewrite Hp4.
Qed.

End Further.

(** * The further properties on concrete runs *)

Lemma quiescent_boot : quiescent boot.
Proof. split; reflexivity. Qed.

(** X1 on a run in which core 0 holds the lock of core 1 and core 2 spins
    for it. *)
Lemma control_lock_held_exactly_in_critical_sections_witness :
  let s := run armv7 contended boot in
  (forall c t, control_lock (percpu s t) = Some c <->
               holds_lock c (pcof s c) = Some t) /\
  (forall c1 c2 t,
     holds_lock c1 (pcof s c1) = Some t ->
     holds_lock c2 (pcof s c2) = Some t -> c1 = c2) /\
  (forall c t, pcof s c = Idle -> control_lock (percpu s t) <> Some c).
Proof.
  apply (control_lock_held_exactly_in_critical_sections armv7 boot contended).
  apply quiescent_boot.
Defined.

(** X2 on the suspend handshake of cores 0 and 1: core 0, back in its
    guest, is not marked suspended. *)
Lemma cpu_suspended_only_inside_suspension_loop_witness :
  let s := run armv7 (Start 0 (Call_arch_suspend_cpu 1) :: suspend_call) boot in
  in_suspension (pcof s 1) = true /\ cpu_suspended (percpu s 0) = false.
Proof.
  destruct (cpu_suspended_only_inside_suspension_loop armv7 boot
              (Start 0 (Call_arch_suspend_cpu 1) :: suspend_call))
    as (H1 & H2 & _).
  - apply quiescent_boot.
  - reflexivity.
  - split.
    + apply H1. reflexivity.
    + apply H2. reflexivity.
Defined.

(** X3: a park request filed by core 1 does not touch [wait_for_poweron]
    of core 0. *)
Lemma wait_for_poweron_written_by_owner_only_witness :
  let s := event_received (requests false false false 32768 true false) in
  wait_for_poweron
    (percpu (run armv7 (Start 1 (Call_arch_park_cpu 0) :: repeat (Exec 1) 4) s)
       0) = wait_for_poweron (percpu s 0).
Proof.
  destruct (wait_for_poweron_written_by_owner_only armv7 0) as (_ & H).
  apply H. repeat constructor; simpl; discriminate.
Defined.

(** X4 on a management SGI taken by core 0. *)
Lemma arch_handle_sgi_dispatches_witness :
  let s := start 0 (Call_arch_handle_sgi 1 3) boot in
  let s' := exec armv7 0 s in
  pcof s' 0 = Ev97 /\ trace s' = trace s /\
  stats (percpu s' 0) JAILHOUSE_CPU_STAT_VMEXITS_MANAGEMENT =
    wrap_stat armv7 (stats (percpu s 0) JAILHOUSE_CPU_STAT_VMEXITS_MANAGEMENT
                     + 3) /\
  (forall k, k <> JAILHOUSE_CPU_STAT_VMEXITS_MANAGEMENT ->
             stats (percpu s' 0) k = stats (percpu s 0) k).
Proof.
  destruct (arch_handle_sgi_dispatches armv7
              (start 0 (Call_arch_handle_sgi 1 3) boot) 0 1 3) as (_ & H & _).
  - reflexivity.
  - apply H.
    + reflexivity.
    + discriminate.
Defined.


(** X6 on a core that is asked to suspend and takes ten steps. *)
Lemma suspended_core_waits_at_line_105_witness :
  let s0 := event_received (requests true false false 32768 false false) in
  let s := run armv7 (repeat (Exec 0) 10) s0 in
  pcof s 0 = Ev105 /\ cpu_suspended (percpu s 0) = true /\
  control_lock (percpu s 0) = None.
Proof.
  destruct (suspended_core_waits_at_line_105 armv7
              (event_received (requests true false false 32768 false false))
              0 (repeat (Exec 0) 10)) as (_ & _ & H).
  - reflexivity.
  - reflexivity.
  - simpl. no_starts.
  - vm_compute. repeat split; discriminate.
  - apply (H eq_refl 6).
Defined.

(** X7 on the solo pass of a core with a flush request. *)
Lemma pending_flush_is_served_under_the_lock_witness :
  let s0 := event_received (requests false false false 32768 false true) in
  let s := run armv7 (repeat (Exec 0) 25) s0 in
  exists new, trace s = new ++ trace s0 /\ flushed 0 (by_core 0 new).
Proof.
  destruct (pending_flush_is_served_under_the_lock armv7
              (event_received (requests false false false 32768 false true))
              0 (repeat (Exec 0) 25)) as (H & _).
  - apply lock_inv_event_received.
  - reflexivity.
  - reflexivity.
  - simpl. no_starts.
  - apply H. reflexivity.
Defined.

(** X8 on the solo pass of a parked core with a reset request and a valid
    entry address. *)
Lemma pass_ends_parked_reset_or_untouched_witness :
  let s0 := event_received (requests false false true 32768 true false) in
  let s := run armv7 (repeat (Exec 0) 25) s0 in
  exists new,
    trace s = new ++ trace s0 /\
    outcome armv7 0 32768 (wait_for_poweron (percpu s 0)) (by_core 0 new).
Proof.
  destruct (pass_ends_parked_reset_or_untouched armv7
              (event_received (requests false false true 32768 true false))
              0 (repeat (Exec 0) 25)) as (H & _).
  - reflexivity.
  - simpl. no_starts.
  - apply H. reflexivity.
Defined.

(** X9 on a management SGI taken by core 0 in the initial state. *)
Lemma event_with_nothing_pending_is_harmless_witness :
  let s := start 0 (Call_arch_handle_sgi 1 2) boot in
  let s' := run armv7 (repeat (Exec 0) 14) s in
  pcof s' 0 = Idle /\
  percpu s' 0 =
    stat_add armv7 JAILHOUSE_CPU_STAT_VMEXITS_MANAGEMENT 2
      (set_field F_cpu_suspended false (percpu s 0)) /\
  (forall c', c' <> 0 ->
     percpu s' c' = percpu s c' /\ pcof s' c' = pcof s c') /\
  trace s' = (0, Write 0 F_cpu_suspended false) :: trace s.
Proof.
  apply (event_with_nothing_pending_is_harmless armv7
           (start 0 (Call_arch_handle_sgi 1 2) boot) 0 1 2);
    try reflexivity.
  discriminate.
Defined.

(** X10 on core 0 suspended and core 1 calling [arch_reset_cpu(0)]. *)
Lemma reset_of_suspended_core_is_not_lost_witness :
  let s0 := reset_of_suspended in
  let s := run armv7 (repeat (Exec 1) 4 ++ repeat (Exec 0) 21) s0 in
  pcof s 0 = Idle /\
  exists new earlier,
    trace s = new ++ trace s0 /\ reset_entered 0 32768 new s /\
    by_core 0 new = arm_cpu_reset 32768 :: earlier.
Proof.
  destruct (reset_of_suspended_core_is_not_lost armv7 reset_of_suspended
              1 0 32768 []) as (_ & H).
  - discriminate.
  - apply lock_inv_run. apply lock_inv_event_received.
  - reflexivity.
  - reflexivity.
  - reflexivity.
  - reflexivity.
  - discriminate.
  - reflexivity.
  - apply H. reflexivity.
Defined.

(** X11 on cores 0 and 1 from the initial state. *)
Lemma suspend_handshake_completes_witness :
  let s1 :=
    run armv7 (Start 0 (Call_arch_suspend_cpu 1) :: repeat (Exec 0) 5) boot in
  let s2 :=
    run armv7 (Start 1 (Call_arch_handle_sgi 1 1) :: repeat (Exec 1) 5) s1 in
  let s3 := exec armv7 0 s2 in
  pcof s3 0 = Idle /\ pcof s3 1 = Ev105 /\ suspended 1 s3 /\
  control_lock (percpu s3 1) = None /\ trace s3 = trace s2.
Proof.
  destruct (suspend_handshake_completes armv7 boot 0 1 1) as (_ & _ & H).
  - discriminate.
  - discriminate.
  - reflexivity.
  - reflexivity.
  - reflexivity.
  - reflexivity.
  - exact H.
Defined.

(** X12 on core 0 suspended, with a reset request pending as well, and
    core 1 calling [arch_park_cpu(0)]. *)
Lemma park_of_suspended_core_parks_it_witness :
  let s0 := park_of_suspended in
  let s := run armv7 (repeat (Exec 1) 4 ++ repeat (Exec 0) 21) s0 in
  pcof s 0 = Idle /\
  exists new, trace s = new ++ trace s0 /\ parked 0 new s.
Proof.
  destruct (park_of_suspended_core_parks_it armv7 park_of_suspended 1 0 [])
    as (_ & H).
  - discriminate.
  - apply lock_inv_run. apply lock_inv_event_received.
  - reflexivity.
  - reflexivity.
  - reflexivity.
  - apply H. reflexivity.
Defined.
